(** * sqlalchemy-cloudflare-d1: the REST connection and its result cursor

    A shallow embedding of [src/sqlalchemy_cloudflare_d1/connection.py]:
    the class [CloudflareD1Connection] (the spec's ExecutionChannel) and
    the class [CloudflareD1Result] (the spec's ResultCursor), followed by
    the properties the specification states about them.

    The source is Python, so the embedding starts with the fragment of the
    Python object model the two classes rely on: the values a decoded JSON
    document is made of, truthiness, [len], subscription, slicing and
    [dict.get]. *)

From Stdlib Require Import ZArith Lia.
From Stdlib Require Import Floats.SpecFloat.
From stdpp Require Import base list strings pretty.

Set Warnings "-register-all".

Open Scope string_scope.
Open Scope Z_scope.

(** ** Python values *)

Module Py.

(** What [json.loads] can return: [None], booleans, integers, floats,
    text, lists and dicts keyed by text.  Text is a [string], one [ascii]
    standing for one character.  A dict is kept as the sequence of its
    (key, value) pairs in document order and denotes [dict(pairs)]: a
    repeated key keeps its first position and its last value. *)
Inductive value : Type :=
  | VNone
  | VBool (b : bool)
  | VInt (n : Z)
  | VFloat (x : spec_float)
  | VStr (s : string)
  | VList (items : list value)
  | VDict (pairs : list (string * value)).

(** The exceptions that reach the caller of the two classes. *)
Inductive exn : Type :=
  | RuntimeError (msg : string)
  | TypeError
  | AttributeError
  | IndexError
  | KeyError
  | JSONDecodeError
  | ValueError
  | InvalidURL.

Definition result (A : Type) : Type := exn + A.

#[global] Instance result_ret : MRet result := fun A a => inr a.

#[global] Instance result_bind : MBind result :=
  fun A B k r =>
    match r with
    | inl e => inl e
    | inr a => k a
    end.

(** [bool(v)] *)
Definition truthy (v : value) : bool :=
  match v with
  | VNone => false
  | VBool b => b
  | VInt n => negb (n =? 0)
  | VFloat x => match x with S754_zero _ => false | _ => true end
  | VStr s => negb (String.eqb s "")
  | VList items => match items with [] => false | _ => true end
  | VDict pairs => match pairs with [] => false | _ => true end
  end.

(** *** dicts *)

(** [d[key]] on [dict(pairs)]: the last pair with that key wins. *)
Fixpoint dict_lookup (pairs : list (string * value)) (key : string)
  : option value :=
  match pairs with
  | [] => None
  | (k, v) :: rest =>
      match dict_lookup rest key with
      | Some v' => Some v'
      | None => if String.eqb k key then Some v else None
      end
  end.

(** [list(d.keys())]: each key once, in order of first insertion. *)
Fixpoint dict_keys (pairs : list (string * value)) : list string :=
  match pairs with
  | [] => []
  | (k, _) :: rest =>
      k :: filter (fun k' => k' ≠ k) (dict_keys rest)
  end.

(** [v.get], the bound method; only dicts have it.  Python looks the
    method up before it evaluates the arguments of the call. *)
Definition get_method (v : value) : result (string -> value -> value) :=
  match v with
  | VDict pairs =>
      inr (fun key default =>
             match dict_lookup pairs key with
             | Some x => x
             | None => default
             end)
  | _ => inl AttributeError
  end.

(** [v.get(key, default)] with arguments that cannot raise. *)
Definition get (v : value) (key : string) (default : value) : result value :=
  method ← get_method v;
  mret (method key default).

(** [v.keys()] *)
Definition keys (v : value) : result (list string) :=
  match v with
  | VDict pairs => inr (dict_keys pairs)
  | _ => inl AttributeError
  end.

(** *** sequences *)

(** [l[i]] on a list: a negative index counts from the end. *)
Definition list_getitem {A} (l : list A) (i : Z) : result A :=
  let n := Z.of_nat (length l) in
  let j := if i <? 0 then i + n else i in
  if (j <? 0) || (n <=? j) then inl IndexError
  else match l !! Z.to_nat j with
       | Some x => inr x
       | None => inl IndexError
       end.

(** How a slice bound is brought into [0 .. n]: a negative bound counts
    from the end, and either kind is clamped. *)
Definition slice_bound (n i : Z) : Z :=
  if i <? 0 then Z.max (i + n) 0 else Z.min i n.

(** [l[start:stop]], and [l[start:]] when [stop] is [None]. *)
Definition list_slice {A} (l : list A) (start : Z) (stop : option Z)
  : list A :=
  let n := Z.of_nat (length l) in
  let lo := slice_bound n start in
  let hi := match stop with
            | Some e => slice_bound n e
            | None => n
            end in
  take (Z.to_nat (hi - lo)) (drop (Z.to_nat lo) l).

Definition chars (s : string) : list value :=
  (fun a => VStr (String a EmptyString)) <$> String.list_ascii_of_string s.

(** [len(v)] *)
Definition len (v : value) : result Z :=
  match v with
  | VStr s => inr (Z.of_nat (String.length s))
  | VList items => inr (Z.of_nat (length items))
  | VDict pairs => inr (Z.of_nat (length (dict_keys pairs)))
  | _ => inl TypeError
  end.

(** [v[i]] for an integer [i].  The keys of a decoded dict are text, so an
    integer subscript never finds one. *)
Definition getitem (v : value) (i : Z) : result value :=
  match v with
  | VList items => list_getitem items i
  | VStr s => list_getitem (chars s) i
  | VDict _ => inl KeyError
  | _ => inl TypeError
  end.

(** [v[start:stop]].  A slice is not a key of a decoded dict; subscripting
    a dict with one raises (a [TypeError] up to Python 3.11). *)
Definition slice (v : value) (start : Z) (stop : option Z) : result value :=
  match v with
  | VList items => inr (VList (list_slice items start stop))
  | VStr s =>
      inr (VStr (String.string_of_list_ascii
                   (list_slice (String.list_ascii_of_string s) start stop)))
  | _ => inl TypeError
  end.

(** The items [iter(v)] yields. *)
Definition iter (v : value) : result (list value) :=
  match v with
  | VList items => inr items
  | VStr s => inr (chars s)
  | VDict pairs => inr (VStr <$> dict_keys pairs)
  | _ => inl TypeError
  end.

End Py.

Import Py.

(** ** A state and exception monad for methods

    A method of an object of type [S] takes the object, returns or raises,
    and leaves the object in a new state. *)

Definition M (S A : Type) : Type := S -> result A * S.

#[global] Instance M_ret {S} : MRet (M S) :=
  fun A a s => (inr a, s).

#[global] Instance M_bind {S} : MBind (M S) :=
  fun A B k m s =>
    match m s with
    | (inl e, s') => (inl e, s')
    | (inr a, s') => k a s'
    end.

Definition raise {S A} (e : exn) : M S A := fun s => (inl e, s).

(** [self], read. *)
Definition this {S} : M S S := fun s => (inr s, s).

(** [self], after the attribute assignments that make it [s']. *)
Definition assign {S} (s' : S) : M S unit := fun _ => (inr tt, s').

(** An expression that may raise but does not touch [self]. *)
Definition lift {S A} (r : result A) : M S A := fun s => (r, s).

(** ** CloudflareD1Result *)

Record CloudflareD1Result : Type := {
  results : value;
  meta : value;
  success : value;
  _index : Z
}.

(** [CloudflareD1Result.__init__] *)
Definition CloudflareD1Result_init (results meta success : value)
  : CloudflareD1Result :=
  {| results := results; meta := meta; success := success; _index := 0 |}.

(** [self._index = i] *)
Definition set_index (self : CloudflareD1Result) (i : Z)
  : CloudflareD1Result :=
  {| results := results self; meta := meta self; success := success self;
     _index := i |}.

Definition fetchone : M CloudflareD1Result value :=
  self ← this;
  n ← lift (len (results self));
  if _index self <? n then
    row ← lift (getitem (results self) (_index self));
    _ ← assign (set_index self (_index self + 1));
    mret row
  else mret VNone.

Definition fetchmany (size : option Z) : M CloudflareD1Result value :=
  self ← this;
  size ← match size with
         | None => n ← lift (len (results self)); mret (n - _index self)
         | Some k => mret k
         end;
  let start := _index self in
  n ← lift (len (results self));
  let end_ := Z.min (start + size) n in
  rows ← lift (slice (results self) start (Some end_));
  _ ← assign (set_index self end_);
  mret rows.

Definition fetchall : M CloudflareD1Result value :=
  self ← this;
  rows ← lift (slice (results self) (_index self) None);
  n ← lift (len (results self));
  _ ← assign (set_index self n);
  mret rows.

(** [__iter__]: the items of [iter(self.results)]. *)
Definition __iter__ : M CloudflareD1Result (list value) :=
  self ← this;
  lift (iter (results self)).

Definition __getitem__ (index : Z) : M CloudflareD1Result value :=
  self ← this;
  lift (getitem (results self) index).

(** The default of [dict.get] is an argument, so [len(self.results)] is
    evaluated, after [self.meta.get] has been looked up, whether or not
    ["changes"] is present. *)
Definition rowcount : M CloudflareD1Result value :=
  self ← this;
  method ← lift (get_method (meta self));
  n ← lift (len (results self));
  mret (method "changes" (VInt n)).

Definition lastrowid : M CloudflareD1Result value :=
  self ← this;
  lift (get (meta self) "last_row_id" VNone).

(** A column descriptor is the tuple the source builds,
    [(name, None, None, None, None, None, None)], kept as the sequence of
    its components. *)
Definition descriptor (name : string) : list value :=
  [VStr name; VNone; VNone; VNone; VNone; VNone; VNone].

Definition description : M CloudflareD1Result (option (list (list value))) :=
  self ← this;
  if truthy (results self) then
    first_row ← lift (getitem (results self) 0);
    names ← lift (keys first_row);
    mret (Some (descriptor <$> names))
  else mret None.

(** ** The HTTP client

    [httpx.Client] is a collaborator outside the repository.  It is
    modelled by what the connection can observe of it: the requests it has
    sent, whether it has been closed, and what [post] does with a request,
    as a function from the requests sent so far and the next request to
    the outcome of the call. *)

Record Request : Type := {
  url : string;
  request_headers : list (string * string);
  json : value
}.

(** A response: [status_code], [text], and what [response.json()] does,
    return the decoded body or raise. *)
Record Response : Type := {
  status_code : Z;
  text : string;
  json_body : result value
}.

(** [client.post] has three outcomes.  It can raise before anything is
    sent: the client is closed, the body holds a float JSON cannot encode
    ([ValueError]), the URL holds a character httpx rejects
    ([httpx.InvalidURL]); none of these is an [httpx.RequestError].  It
    can raise [httpx.RequestError] (with [str(e)] as payload).  Or it
    returns a response. *)
Inductive post_result : Type :=
  | NotSent (e : exn)
  | RequestError (e : string)
  | Responded (response : Response).

Record Client : Type := {
  headers : list (string * string);
  timeout : Z;
  remote : list Request -> Request -> post_result;
  sent : list Request;
  is_closed : bool
}.

(** The client once [rq] has gone out. *)
Definition has_sent (c : Client) (rq : Request) : Client :=
  {| headers := headers c; timeout := timeout c; remote := remote c;
     sent := sent c ++ [rq]; is_closed := is_closed c |}.

(** [client.post(url, json=payload)]; a closed client refuses to send,
    and a request that is not sent is not recorded. *)
Definition Client_post (c : Client) (u : string) (payload : value)
  : post_result * Client :=
  if is_closed c then
    (NotSent (RuntimeError
                "Cannot send a request, as the client has been closed."), c)
  else
    let rq := {| url := u; request_headers := headers c; json := payload |} in
    match remote c (sent c) rq with
    | NotSent e => (NotSent e, c)
    | outcome => (outcome, has_sent c rq)
    end.

(** [client.close()] *)
Definition Client_close (c : Client) : Client :=
  {| headers := headers c; timeout := timeout c; remote := remote c;
     sent := sent c; is_closed := true |}.

(** [response.raise_for_status()] returns for the 2xx codes and raises
    [httpx.HTTPStatusError] otherwise. *)
Definition is_success (r : Response) : bool :=
  (200 <=? status_code r) && (status_code r <=? 299).

(** ** CloudflareD1Connection *)

Record CloudflareD1Connection : Type := {
  account_id : string;
  database_id : string;
  api_token : string;
  base_url : string;
  client : Client;
  _closed : bool;
  _in_transaction : bool
}.

(** [CloudflareD1Connection.__init__]; [net] is the remote end the new
    client will talk to. *)
Definition CloudflareD1Connection_init
    (account_id database_id api_token : string)
    (net : list Request -> Request -> post_result)
  : CloudflareD1Connection :=
  {| account_id := account_id;
     database_id := database_id;
     api_token := api_token;
     base_url :=
       "https://api.cloudflare.com/client/v4/accounts/" +:+ account_id
       +:+ "/d1/database/" +:+ database_id;
     client :=
       {| headers := [("Authorization", "Bearer " +:+ api_token);
                      ("Content-Type", "application/json")];
          timeout := 30;
          remote := net;
          sent := [];
          is_closed := false |};
     _closed := false;
     _in_transaction := false |}.

Definition set_client (self : CloudflareD1Connection) (c : Client)
  : CloudflareD1Connection :=
  {| account_id := account_id self; database_id := database_id self;
     api_token := api_token self; base_url := base_url self;
     client := c;
     _closed := _closed self; _in_transaction := _in_transaction self |}.

Definition set_closed (self : CloudflareD1Connection) (b : bool)
  : CloudflareD1Connection :=
  {| account_id := account_id self; database_id := database_id self;
     api_token := api_token self; base_url := base_url self;
     client := client self;
     _closed := b; _in_transaction := _in_transaction self |}.

Definition set_in_transaction (self : CloudflareD1Connection) (b : bool)
  : CloudflareD1Connection :=
  {| account_id := account_id self; database_id := database_id self;
     api_token := api_token self; base_url := base_url self;
     client := client self;
     _closed := _closed self; _in_transaction := b |}.

Definition close : M CloudflareD1Connection unit :=
  self ← this;
  if negb (_closed self) then
    assign (set_closed (set_client self (Client_close (client self))) true)
  else mret tt.

Definition closed : M CloudflareD1Connection bool :=
  self ← this;
  mret (_closed self).

(** [self.client.post(...)] as a step of a method of the connection. *)
Definition post (u : string) (payload : value)
  : M CloudflareD1Connection post_result :=
  fun self =>
    let '(r, c) := Client_post (client self) u payload in
    (inr r, set_client self c).

(** Lines 67-70 of [execute]: the request body.  [parameters] is [None]
    or a sequence; only a non-empty sequence is truthy and adds the
    ["params"] entry. *)
Definition request_payload (query : string) (parameters : option (list value))
  : value :=
  let payload := [("sql", VStr query)] in
  VDict match parameters with
        | Some (p :: ps) => payload ++ [("params", VList (p :: ps))]
        | _ => payload
        end.

(** The request [execute] sends for [query] and [parameters]. *)
Definition query_request (self : CloudflareD1Connection) (query : string)
    (parameters : option (list value)) : Request :=
  {| url := base_url self +:+ "/query";
     request_headers := headers (client self);
     json := request_payload query parameters |}.

Section Formatting.

(** [str(v)] for the values that are not text is Python's business and
    stays a parameter; text formats as itself. *)
Variable str_other : value -> string.

Definition format (v : value) : string :=
  match v with
  | VStr s => s
  | _ => str_other v
  end.

(** Lines 80-98 of [execute]: from the decoded envelope to the result
    object, or to the error the envelope reports. *)
Definition unwrap (data : value) : result CloudflareD1Result :=
  ok ← get data "success" (VBool false);
  if negb (truthy ok) then
    errors ← get data "errors" (VList []);
    if truthy errors then
      first ← getitem errors 0;
      error_msg ← get first "message" (VStr "Unknown error");
      inl (RuntimeError ("D1 API error: " +:+ format error_msg))
    else inl (RuntimeError "D1 API request failed")
  else
    result_data ← get data "result" (VList []);
    if truthy result_data then
      query_result ← getitem result_data 0;
      rs ← get query_result "results" (VList []);
      mt ← get query_result "meta" (VDict []);
      sc ← get query_result "success" (VBool true);
      inr (CloudflareD1Result_init rs mt sc)
    else
      inr (CloudflareD1Result_init (VList []) (VDict []) (VBool true)).

Definition execute (query : string) (parameters : option (list value))
  : M CloudflareD1Connection CloudflareD1Result :=
  self ← this;
  if _closed self then raise (RuntimeError "Connection is closed")
  else
    let payload := request_payload query parameters in
    outcome ← post (base_url self +:+ "/query") payload;
    match outcome with
    | NotSent e => raise e
    | RequestError e => raise (RuntimeError ("HTTP request failed: " +:+ e))
    | Responded response =>
        if is_success response then
          data ← lift (json_body response);
          lift (unwrap data)
        else
          raise (RuntimeError
                   ("HTTP error " +:+ pretty (status_code response) +:+ ": "
                    +:+ text response))
    end.

(** The loop of [execute_many], with [results] the list built so far. *)
Fixpoint execute_many_loop (query : string)
    (parameters_list : list (list value))
    (results : list CloudflareD1Result)
  : M CloudflareD1Connection (list CloudflareD1Result) :=
  match parameters_list with
  | [] => mret results
  | parameters :: rest =>
      r ← execute query (Some parameters);
      execute_many_loop query rest (results ++ [r])%list
  end.

Definition execute_many (query : string)
    (parameters_list : list (list value))
  : M CloudflareD1Connection (list CloudflareD1Result) :=
  execute_many_loop query parameters_list [].

End Formatting.

Definition begin_transaction : M CloudflareD1Connection unit :=
  self ← this;
  assign (set_in_transaction self true).

Definition commit_transaction : M CloudflareD1Connection unit :=
  self ← this;
  assign (set_in_transaction self false).

Definition rollback_transaction : M CloudflareD1Connection unit :=
  self ← this;
  assign (set_in_transaction self false).

Definition get_server_version : M CloudflareD1Connection string :=
  mret "D1-REST-API".

(** ** Sequences of operations

    The operations a caller can apply to a cursor and to a connection,
    and the object after a sequence of them. *)

Inductive cursor_op : Type :=
  | Fetchone
  | Fetchmany (size : option Z)
  | Fetchall
  | Iterate
  | Subscript (index : Z).

(** The cursor after one operation; an operation that raises leaves the
    cursor as the method left it. *)
Definition after (o : cursor_op) (self : CloudflareD1Result)
  : CloudflareD1Result :=
  match o with
  | Fetchone => snd (fetchone self)
  | Fetchmany size => snd (fetchmany size self)
  | Fetchall => snd (fetchall self)
  | Iterate => snd (__iter__ self)
  | Subscript index => snd (__getitem__ index self)
  end.

Definition after_all (ops : list cursor_op) (self : CloudflareD1Result)
  : CloudflareD1Result :=
  foldl (fun s o => after o s) self ops.

(** The size of a [fetchmany] is absent or not negative. *)
Definition size_not_negative (o : cursor_op) : Prop :=
  match o with
  | Fetchmany (Some k) => 0 <= k
  | _ => True
  end.

(** [fetchmany(k)] for each [k] of [ks] in turn, collecting what each call
    returns. *)
Fixpoint fetchmany_each (ks : list Z)
  : M CloudflareD1Result (list value) :=
  match ks with
  | [] => mret []
  | k :: ks' =>
      rows ← fetchmany (Some k);
      rest ← fetchmany_each ks';
      mret (rows :: rest)
  end.

Definition total (ks : list Z) : Z := foldr Z.add 0 ks.

Inductive channel_op : Type :=
  | Close
  | Closed
  | Execute (query : string) (parameters : option (list value))
  | ExecuteMany (query : string) (parameters_list : list (list value))
  | BeginTransaction
  | CommitTransaction
  | RollbackTransaction
  | GetServerVersion.

Section ChannelOperations.

Variable str_other : value -> string.

Implicit Types (self : CloudflareD1Connection).

(** The connection after one operation, whether it returned or raised. *)
Definition channel_after (o : channel_op) self : CloudflareD1Connection :=
  match o with
  | Close => snd (close self)
  | Closed => snd (closed self)
  | Execute query parameters =>
      snd (execute str_other query parameters self)
  | ExecuteMany query parameters_list =>
      snd (execute_many str_other query parameters_list self)
  | BeginTransaction => snd (begin_transaction self)
  | CommitTransaction => snd (commit_transaction self)
  | RollbackTransaction => snd (rollback_transaction self)
  | GetServerVersion => snd (get_server_version self)
  end.

Definition channel_after_all (ops : list channel_op) self
  : CloudflareD1Connection :=
  foldl (fun s o => channel_after o s) self ops.

End ChannelOperations.

(** The descriptor the specification describes: the name and five
    placeholders. *)
Definition descriptor_in_spec (name : string) : list value :=
  VStr name :: replicate 5 VNone.

(** [fetchone()] [n] times in a row, collecting what each call returns. *)
Fixpoint fetchone_each (n : nat) : M CloudflareD1Result (list value) :=
  match n with
  | O => mret []
  | S n' =>
      row ← fetchone;
      rest ← fetchone_each n';
      mret (row :: rest)
  end.

(** The attributes [__init__] sets and no method assigns: the
    identifiers, the token, the URL, and the configuration and remote end
    of the client. *)
Definition same_configuration (s s' : CloudflareD1Connection) : Prop :=
  account_id s' = account_id s
  /\ database_id s' = database_id s
  /\ api_token s' = api_token s
  /\ base_url s' = base_url s
  /\ headers (client s') = headers (client s)
  /\ timeout (client s') = timeout (client s)
  /\ remote (client s') = remote (client s).

(** The requests [s'] has sent are those [s] had sent, followed by
    requests [execute] builds for some query and parameters. *)
Definition sent_more (s s' : CloudflareD1Connection) : Prop :=
  same_configuration s s'
  /\ exists requests,
       sent (client s') = (sent (client s) ++ requests)%list
       /\ Forall (fun rq => exists query parameters,
                              rq = query_request s query parameters)
                 requests.

(** The connection and its client are closed together. *)
Definition closed_together (s : CloudflareD1Connection) : Prop :=
  _closed s = is_closed (client s).

(** The operations that assign the transaction flag. *)
Definition is_transaction_op (o : channel_op) : Prop :=
  match o with
  | BeginTransaction | CommitTransaction | RollbackTransaction => True
  | _ => False
  end.

(** The operations that never call [execute]. *)
Definition is_local (o : channel_op) : Prop :=
  match o with
  | Execute _ _ | ExecuteMany _ _ => False
  | _ => True
  end.

(** ** Sample data, used where a property is run on a concrete input *)

Module Sample.

Definition row1 : value := VDict [("id", VInt 1); ("name", VStr "a")].
Definition row2 : value := VDict [("id", VInt 2); ("name", VStr "b")].
Definition row3 : value := VDict [("id", VInt 3); ("name", VStr "c")].

Definition rows : list value := [row1; row2; row3].

(** A cursor over three rows, as [execute] would build it. *)
Definition cursor : CloudflareD1Result :=
  CloudflareD1Result_init (VList rows) (VDict []) (VBool true).

(** A remote end that answers every request with status 200 and the
    given decoded body. *)
Definition answers (body : value) : list Request -> Request -> post_result :=
  fun _ _ =>
    Responded {| status_code := 200; text := ""; json_body := inr body |}.

Definition connection (body : value) : CloudflareD1Connection :=
  CloudflareD1Connection_init "account" "database" "token" (answers body).

Definition str_other (v : value) : string := "?".

End Sample.

Module SampleEnvelope.

(** [{"success": true, "result": [{"results": [row1], "meta": {"changes": 1}}]}] *)
Definition block : list (string * value) :=
  [("results", VList [Sample.row1]); ("meta", VDict [("changes", VInt 1)])].

Definition success : list (string * value) :=
  [("success", VBool true); ("result", VList [VDict block])].

(** An envelope whose only block has all three entries, with rows,
    metadata and a [success] that differ from the defaults. *)
Definition flagged_block : list (string * value) :=
  [("results", VList [Sample.row1; Sample.row2]);
   ("meta", VDict [("changes", VInt 0); ("last_row_id", VInt 7)]);
   ("success", VBool false)].

Definition flagged : list (string * value) :=
  [("success", VBool true); ("result", VList [VDict flagged_block])].

(** [{"success": false, "errors": [{"message": "syntax error"}]}] *)
Definition failure : list (string * value) :=
  [("success", VBool false);
   ("errors", VList [VDict [("message", VStr "syntax error")]])].

Definition response (envelope : list (string * value)) : Response :=
  {| status_code := 200; text := ""; json_body := inr (VDict envelope) |}.

End SampleEnvelope.

Module SampleNetwork.

(** A remote end that answers the first request with an empty result and
    is unreachable from the second request on. *)
Definition fails_after_one : list Request -> Request -> post_result :=
  fun history _ =>
    match history with
    | [] =>
        Responded {| status_code := 200; text := "";
                     json_body := inr (VDict [("success", VBool true)]) |}
    | _ :: _ => RequestError "connection refused"
    end.

Definition connection : CloudflareD1Connection :=
  CloudflareD1Connection_init "account" "database" "token" fails_after_one.

(** A connection whose client raises [ValueError] before sending, as
    httpx does for a body that holds a NaN. *)
Definition unsendable : CloudflareD1Connection :=
  CloudflareD1Connection_init "account" "database" "token"
    (fun _ _ => NotSent ValueError).

End SampleNetwork.

(** * Properties *)

(** ** The model on concrete data *)

Example rowcount_from_meta :
  fst (rowcount (CloudflareD1Result_init
                   (VList [Sample.row1])
                   (VDict [("changes", VInt 1); ("last_row_id", VInt 1)])
                   (VBool true)))
  = inr (VInt 1).
Proof. reflexivity. Qed.

Example rowcount_without_changes :
  fst (rowcount Sample.cursor) = inr (VInt 3).
Proof. reflexivity. Qed.

Example lastrowid_from_meta :
  fst (lastrowid (CloudflareD1Result_init
                    (VList [Sample.row1])
                    (VDict [("changes", VInt 1); ("last_row_id", VInt 1)])
                    (VBool true)))
  = inr (VInt 1).
Proof. reflexivity. Qed.

Example payload_without_parameters :
  request_payload "SELECT 1" None = VDict [("sql", VStr "SELECT 1")]
  /\ request_payload "SELECT 1" (Some []) = VDict [("sql", VStr "SELECT 1")].
Proof. split; reflexivity. Qed.

Example payload_with_parameters :
  request_payload "SELECT ?" (Some [VInt 7])
  = VDict [("sql", VStr "SELECT ?"); ("params", VList [VInt 7])].
Proof. reflexivity. Qed.

Example execute_non_2xx :
  fst (execute Sample.str_other "SELECT 1" None
         (CloudflareD1Connection_init "account" "database" "token"
            (fun _ _ =>
               Responded {| status_code := 404; text := "not found";
                            json_body := inl JSONDecodeError |})))
  = inl (RuntimeError "HTTP error 404: not found").
Proof. reflexivity. Qed.

Example iteration_ignores_position :
  __iter__ (set_index Sample.cursor 2)
  = (inr Sample.rows, set_index Sample.cursor 2).
Proof. reflexivity. Qed.

(** ** Lists: subscription and slicing inside the bounds *)

Section Sequences.

Context {A : Type}.
Implicit Types (l : list A) (i k : Z).

Lemma list_getitem_nonneg l i x :
  0 <= i -> l !! Z.to_nat i = Some x -> list_getitem l i = inr x.
Proof.
  intros Hi Hx. unfold list_getitem.
  pose proof (lookup_lt_Some _ _ _ Hx) as Hlt.
  destruct (Z.ltb_spec i 0) as [Hneg | _]; [lia |].
  destruct (Z.ltb_spec i 0), (Z.leb_spec (Z.of_nat (length l)) i);
    simpl; try lia.
  now rewrite Hx.
Qed.

Lemma list_getitem_negative l i :
  - Z.of_nat (length l) <= i < 0 ->
  exists x, l !! Z.to_nat (Z.of_nat (length l) + i) = Some x
            /\ list_getitem l i = inr x.
Proof.
  intros Hi.
  destruct (lookup_lt_is_Some_2 l (Z.to_nat (Z.of_nat (length l) + i)))
    as [x Hx]; [lia |].
  exists x. split; [exact Hx |].
  unfold list_getitem.
  destruct (Z.ltb_spec i 0) as [_ | Hpos]; [| lia].
  replace (i + Z.of_nat (length l)) with (Z.of_nat (length l) + i) by lia.
  destruct (Z.ltb_spec (Z.of_nat (length l) + i) 0),
           (Z.leb_spec (Z.of_nat (length l)) (Z.of_nat (length l) + i));
    simpl; try lia.
  now rewrite Hx.
Qed.

Lemma slice_bound_inside n i : 0 <= i <= n -> slice_bound n i = i.
Proof. intros Hi. unfold slice_bound. destruct (Z.ltb_spec i 0); lia. Qed.

Lemma slice_bound_above n i : 0 <= n <= i -> slice_bound n i = n.
Proof. intros Hi. unfold slice_bound. destruct (Z.ltb_spec i 0); lia. Qed.

(** [l[i:]] for [0 <= i] is [l] without its first [i] items. *)
Lemma list_slice_from l i :
  0 <= i -> list_slice l i None = drop (Z.to_nat i) l.
Proof.
  intros Hi. unfold list_slice.
  destruct (Z.le_gt_cases i (Z.of_nat (length l))) as [Hle | Hgt].
  - rewrite slice_bound_inside by lia.
    apply take_ge. rewrite length_drop. lia.
  - rewrite slice_bound_above by lia.
    rewrite Z.sub_diag. simpl. symmetry. apply drop_ge. lia.
Qed.

(** [l[i:j]] for [0 <= i <= j <= len(l)]. *)
Lemma list_slice_inside l i j :
  0 <= i <= j -> j <= Z.of_nat (length l) ->
  list_slice l i (Some j) = take (Z.to_nat (j - i)) (drop (Z.to_nat i) l).
Proof.
  intros Hi Hj. unfold list_slice.
  now rewrite !slice_bound_inside by lia.
Qed.

Lemma length_list_slice_inside l i j :
  0 <= i <= j -> j <= Z.of_nat (length l) ->
  Z.of_nat (length (list_slice l i (Some j))) = j - i.
Proof.
  intros Hi Hj. rewrite list_slice_inside by lia.
  rewrite length_take, length_drop. lia.
Qed.

End Sequences.

(** ** The result cursor over a list of rows *)

Ltac run_method :=
  unfold mbind, M_bind, mret, M_ret, this, lift, assign, raise; simpl.

Section Cursor.

Implicit Types (self : CloudflareD1Result) (R : list value).

(** What the three fetch methods compute when [results] is a list. *)

Lemma fetchone_list self R :
  results self = VList R ->
  fetchone self =
    if _index self <? Z.of_nat (length R) then
      match list_getitem R (_index self) with
      | inr row => (inr row, set_index self (_index self + 1))
      | inl e => (inl e, self)
      end
    else (inr VNone, self).
Proof.
  intros HR. unfold fetchone. run_method. rewrite HR. simpl.
  destruct (_index self <? Z.of_nat (length R)); [| reflexivity].
  now destruct (list_getitem R (_index self)).
Qed.

Lemma fetchmany_list self R size :
  results self = VList R ->
  fetchmany size self =
    let n := Z.of_nat (length R) in
    let k := match size with
             | None => n - _index self
             | Some k => k
             end in
    let end_ := Z.min (_index self + k) n in
    (inr (VList (list_slice R (_index self) (Some end_))),
     set_index self end_).
Proof.
  intros HR. unfold fetchmany. run_method. rewrite HR.
  now destruct size.
Qed.

Lemma fetchall_list self R :
  results self = VList R ->
  fetchall self =
    (inr (VList (list_slice R (_index self) None)),
     set_index self (Z.of_nat (length R))).
Proof. intros HR. unfold fetchall. run_method. now rewrite HR. Qed.

(** [fetchone] inside the rows and past their end. *)

Lemma fetchone_row self R row :
  results self = VList R -> 0 <= _index self ->
  R !! Z.to_nat (_index self) = Some row ->
  fetchone self = (inr row, set_index self (_index self + 1)).
Proof.
  intros HR Hi Hrow. rewrite (fetchone_list self R HR).
  pose proof (lookup_lt_Some _ _ _ Hrow) as Hlt.
  destruct (Z.ltb_spec (_index self) (Z.of_nat (length R))); [| lia].
  now rewrite (list_getitem_nonneg R (_index self) row).
Qed.

Lemma fetchone_exhausted self R :
  results self = VList R -> Z.of_nat (length R) <= _index self ->
  fetchone self = (inr VNone, self).
Proof.
  intros HR Hi. rewrite (fetchone_list self R HR).
  destruct (Z.ltb_spec (_index self) (Z.of_nat (length R))); [lia | easy].
Qed.

(** [fetchmany(k)] for [0 <= k] with the position inside the rows: the
    next [k] rows, or as many as are left. *)
Lemma fetchmany_nonneg self R k :
  results self = VList R ->
  0 <= _index self <= Z.of_nat (length R) -> 0 <= k ->
  fetchmany (Some k) self =
    (inr (VList (take (Z.to_nat k) (drop (Z.to_nat (_index self)) R))),
     set_index self (Z.min (_index self + k) (Z.of_nat (length R)))).
Proof.
  intros HR Hi Hk. rewrite (fetchmany_list self R (Some k) HR). simpl.
  rewrite list_slice_inside by lia.
  do 2 f_equal. f_equal.
  destruct (Z.le_gt_cases (_index self + k) (Z.of_nat (length R))).
  - f_equal. lia.
  - rewrite !take_ge; [reflexivity | rewrite length_drop; lia ..].
Qed.

(** [fetchmany()] with the size left out is [fetchall]. *)
Lemma fetchmany_default self R :
  results self = VList R ->
  0 <= _index self <= Z.of_nat (length R) ->
  fetchmany None self =
    (inr (VList (drop (Z.to_nat (_index self)) R)),
     set_index self (Z.of_nat (length R))).
Proof.
  intros HR Hi. rewrite (fetchmany_list self R None HR). simpl.
  replace (_index self + (Z.of_nat (length R) - _index self))
    with (Z.of_nat (length R)) by lia.
  rewrite Z.min_id, list_slice_inside by lia.
  do 3 f_equal. apply take_ge. rewrite length_drop. lia.
Qed.

(** [fetchmany(0)] is empty and stays where it is. *)
Lemma fetchmany_zero self R :
  results self = VList R -> _index self <= Z.of_nat (length R) ->
  fetchmany (Some 0) self = (inr (VList []), self).
Proof.
  intros HR Hi. rewrite (fetchmany_list self R (Some 0) HR). simpl.
  rewrite Z.add_0_r, Z.min_l by lia.
  unfold list_slice. rewrite Z.sub_diag. simpl.
  destruct self; reflexivity.
Qed.

End Cursor.

Section Position.

Implicit Types (self : CloudflareD1Result) (R : list value).

Lemma after_position o self R :
  results self = VList R ->
  0 <= _index self <= Z.of_nat (length R) ->
  size_not_negative o ->
  results (after o self) = VList R
  /\ _index self <= _index (after o self) <= Z.of_nat (length R).
Proof.
  intros HR Hi Hsize. destruct o as [| [k |] | | | i]; simpl.
  - rewrite (fetchone_list self R HR).
    destruct (Z.ltb_spec (_index self) (Z.of_nat (length R))).
    + destruct (list_getitem R (_index self)); simpl; split; try easy; lia.
    + simpl. split; [easy | lia].
  - simpl in Hsize. rewrite (fetchmany_nonneg self R k HR Hi Hsize). simpl.
    split; [easy | lia].
  - rewrite (fetchmany_default self R HR Hi). simpl. split; [easy | lia].
  - rewrite (fetchall_list self R HR). simpl. split; [easy | lia].
  - unfold __iter__. run_method. split; [easy | lia].
  - unfold __getitem__. run_method. split; [easy | lia].
Qed.

(** With no negative [fetchmany] size, the position stays between the
    position it started from and the number of rows, whatever the
    operations. *)
Lemma after_all_position ops : forall self R,
  results self = VList R ->
  0 <= _index self <= Z.of_nat (length R) ->
  Forall size_not_negative ops ->
  results (after_all ops self) = VList R
  /\ _index self <= _index (after_all ops self) <= Z.of_nat (length R).
Proof.
  induction ops as [| o ops IH]; intros self R HR Hi Hops; simpl.
  - split; [easy | lia].
  - apply Forall_cons in Hops as [Ho Hops].
    destruct (after_position o self R HR Hi Ho) as [HR' Hi'].
    destruct (IH (after o self) R HR' ltac:(lia) Hops) as [HR'' Hi''].
    split; [exact HR'' | lia].
Qed.

(** A [fetchmany] with a size that is not negative, and a [fetchall],
    advance the position by the number of rows they return. *)
Lemma fetchmany_advance self R k :
  results self = VList R ->
  0 <= _index self <= Z.of_nat (length R) -> 0 <= k ->
  exists rows,
    fst (fetchmany (Some k) self) = inr (VList rows)
    /\ _index (snd (fetchmany (Some k) self))
       = _index self + Z.of_nat (length rows).
Proof.
  intros HR Hi Hk. rewrite (fetchmany_nonneg self R k HR Hi Hk). simpl.
  eexists. split; [reflexivity |].
  rewrite length_take, length_drop. lia.
Qed.

Lemma fetchall_advance self R :
  results self = VList R ->
  0 <= _index self <= Z.of_nat (length R) ->
  exists rows,
    fst (fetchall self) = inr (VList rows)
    /\ _index (snd (fetchall self)) = _index self + Z.of_nat (length rows).
Proof.
  intros HR Hi. rewrite (fetchall_list self R HR). simpl.
  eexists. split; [reflexivity |].
  rewrite list_slice_from, length_drop by lia. lia.
Qed.

End Position.

(** C3: the position is meant to stay within [0 .. len(rows)], never to
    decrease, and to advance by the number of rows a fetch returns.  The
    code keeps this for sizes that are not negative ([after_all_position],
    [fetchmany_advance]) but not for a negative size: on a fresh cursor
    over three rows [fetchmany(-1)] returns the first two rows and sets the
    position to -1, below zero and below where it was; the [fetchone] that
    follows then returns the last row. *)
Theorem position_after_negative_fetchmany :
  let s0 := Sample.cursor in
  let s1 := after (Fetchmany (Some (-1))) s0 in
  _index s0 = 0
  /\ fetchmany (Some (-1)) s0
     = (inr (VList [Sample.row1; Sample.row2]), s1)
  /\ _index s1 = -1
  /\ fetchone s1 = (inr Sample.row3, set_index s1 0).
Proof. repeat split. Qed.

(** C4: [fetchmany] with a size of zero or less is meant to return no rows
    and leave the position alone.  For size 0 it does
    ([fetchmany_zero]); for a negative size the code slices
    [results[start : start + size]] and stores [start + size] as the new
    position: on a fresh cursor over three rows, [fetchmany(-1)] returns
    two rows and moves the position from 0 to -1. *)
Theorem fetchmany_negative_size :
  fetchmany (Some (-1)) Sample.cursor
  = (inr (VList [Sample.row1; Sample.row2]), set_index Sample.cursor (-1)).
Proof. reflexivity. Qed.

(** ** fetchall, fetchmany in chunks, subscription, description *)

(** C5: [fetchall] on a fresh cursor over the rows [R] returns [R] and
    leaves the position at [len(R)]; from any position that is not
    negative it returns the rows from that position on and sets the
    position to the number of rows. *)
Theorem fetchall_returns_remaining :
  (forall R m s,
     fetchall (CloudflareD1Result_init (VList R) m s)
     = (inr (VList R),
        set_index (CloudflareD1Result_init (VList R) m s)
                  (Z.of_nat (length R))))
  /\ (forall self R,
        results self = VList R -> 0 <= _index self ->
        fetchall self
        = (inr (VList (drop (Z.to_nat (_index self)) R)),
           set_index self (Z.of_nat (length R)))).
Proof.
  assert (Hgen : forall self R,
            results self = VList R -> 0 <= _index self ->
            fetchall self
            = (inr (VList (drop (Z.to_nat (_index self)) R)),
               set_index self (Z.of_nat (length R)))).
  { intros self R HR Hi. rewrite (fetchall_list self R HR).
    now rewrite list_slice_from. }
  split; [| exact Hgen].
  intros R m s.
  now rewrite (Hgen (CloudflareD1Result_init (VList R) m s) R).
Qed.

Lemma fetchall_returns_remaining_witness :
  fetchall (set_index Sample.cursor 1)
  = (inr (VList [Sample.row2; Sample.row3]),
     set_index (set_index Sample.cursor 1) 3).
Proof.
  apply (proj2 fetchall_returns_remaining
           (set_index Sample.cursor 1) Sample.rows).
  - reflexivity.
  - simpl. lia.
Defined.

Lemma fetchmany_each_from ks : forall self R,
  results self = VList R -> 0 <= _index self ->
  Forall (fun k => 0 < k) ks ->
  _index self + total ks = Z.of_nat (length R) ->
  exists slices self',
    fetchmany_each ks self = (inr (VList <$> slices), self')
    /\ concat slices = drop (Z.to_nat (_index self)) R
    /\ results self' = VList R
    /\ _index self' = Z.of_nat (length R).
Proof.
  induction ks as [| k ks IH]; intros self R HR Hi Hks Hsum; simpl in *.
  - exists [], self. repeat split; try easy.
    + symmetry. apply drop_ge. lia.
    + lia.
  - apply Forall_cons in Hks as [Hk Hks].
    assert (Htot : 0 <= total ks).
    { clear -Hks. induction Hks; simpl; lia. }
    run_method.
    rewrite (fetchmany_nonneg self R k HR ltac:(lia) ltac:(lia)).
    rewrite Z.min_l by lia.
    set (self1 := set_index self (_index self + k)).
    destruct (IH self1 R HR ltac:(simpl; lia) Hks ltac:(simpl; lia))
      as (slices & self' & Hrun & Hcat & HR' & Hi').
    fold fetchmany_each. rewrite Hrun.
    exists (take (Z.to_nat k) (drop (Z.to_nat (_index self)) R) :: slices),
           self'.
    repeat split; try easy.
    simpl. rewrite Hcat. simpl.
    replace (Z.to_nat (_index self + k))
      with (Z.to_nat (_index self) + Z.to_nat k)%nat by lia.
    rewrite <- drop_drop. apply take_drop.
Qed.

(** C6: on a fresh cursor over [R], a sequence of [fetchmany(k)] calls
    with every [k] positive and the sizes adding up to [len(R)] returns
    slices whose concatenation is [R]. *)
Theorem fetchmany_chunks_concat R m s ks :
  Forall (fun k => 0 < k) ks ->
  total ks = Z.of_nat (length R) ->
  exists slices self',
    fetchmany_each ks (CloudflareD1Result_init (VList R) m s)
    = (inr (VList <$> slices), self')
    /\ concat slices = R.
Proof.
  intros Hks Hsum.
  destruct (fetchmany_each_from ks
              (CloudflareD1Result_init (VList R) m s) R)
    as (slices & self' & Hrun & Hcat & _); try easy.
  exists slices, self'. split; [exact Hrun |].
  now rewrite Hcat.
Qed.

Lemma fetchmany_chunks_concat_witness :
  exists slices self',
    fetchmany_each [2; 1] Sample.cursor = (inr (VList <$> slices), self')
    /\ concat slices = Sample.rows.
Proof.
  apply (fetchmany_chunks_concat Sample.rows (VDict []) (VBool true) [2; 1]).
  - repeat constructor.
  - reflexivity.
Defined.

(** C10: on a cursor over the rows [R], subscription with an index [i],
    [-len(R) <= i < 0], returns the row [R[len(R) + i]] and leaves the
    cursor, its position included, as it was. *)
Theorem getitem_negative_index self R i :
  results self = VList R ->
  - Z.of_nat (length R) <= i < 0 ->
  exists row,
    R !! Z.to_nat (Z.of_nat (length R) + i) = Some row
    /\ __getitem__ i self = (inr row, self).
Proof.
  intros HR Hi.
  destruct (list_getitem_negative R i Hi) as (row & Hrow & Hget).
  exists row. split; [exact Hrow |].
  unfold __getitem__. run_method. rewrite HR. simpl. now rewrite Hget.
Qed.

Lemma getitem_negative_index_witness :
  exists row,
    Sample.rows !! Z.to_nat (Z.of_nat (length Sample.rows) + -1) = Some row
    /\ __getitem__ (-1) Sample.cursor = (inr row, Sample.cursor).
Proof.
  apply (getitem_negative_index Sample.cursor Sample.rows (-1)).
  - reflexivity.
  - simpl. lia.
Defined.

(** The keys of a dict: each key that has a value, once. *)

Lemma NoDup_dict_keys pairs : NoDup (dict_keys pairs).
Proof.
  induction pairs as [| [k v] rest IH]; simpl.
  - constructor.
  - constructor.
    + rewrite list_elem_of_filter. intros [Hne _]. now apply Hne.
    + now apply NoDup_filter.
Qed.

Lemma elem_of_dict_keys pairs key :
  key ∈ dict_keys pairs <-> is_Some (dict_lookup pairs key).
Proof.
  induction pairs as [| [k v] rest IH]; simpl.
  - split; [intros H; inversion H | intros [x Hx]; discriminate].
  - rewrite elem_of_cons, list_elem_of_filter, IH.
    destruct (dict_lookup rest key) as [x |] eqn:Hrest.
    + split; [eauto |]. intros _.
      destruct (decide (key = k)); [now left | right; eauto].
    + destruct (String.eqb_spec k key) as [-> | Hne].
      * split; [eauto | now left].
      * split; [| intros [x Hx]; discriminate].
        intros [-> | [_ [x Hx]]]; [now destruct Hne | discriminate].
Qed.

(** C9 as stated fails: the descriptors of the sample cursor are not the
    column names followed by five placeholders each. *)
Lemma description_not_five_placeholders :
  description Sample.cursor
  <> (inr (Some (descriptor_in_spec <$> ["id"; "name"])), Sample.cursor).
Proof. discriminate. Qed.

(** C9, amended: when the rows are not empty, [description] is one
    descriptor per key of the first row, in the order of the keys, each
    the column name followed by six [None] placeholders (a 7-tuple); when
    there are no rows it is [None]. *)
Theorem description_of_first_row self :
  (forall first R,
     results self = VList (VDict first :: R) ->
     description self = (inr (Some (descriptor <$> dict_keys first)), self)
     /\ NoDup (dict_keys first)
     /\ (forall name, name ∈ dict_keys first
                      <-> is_Some (dict_lookup first name)))
  /\ (forall name, descriptor name = VStr name :: replicate 6 VNone)
  /\ (results self = VList [] -> description self = (inr None, self)).
Proof.
  split; [| split].
  - intros first R HR. split; [| split].
    + unfold description. run_method. now rewrite HR.
    + apply NoDup_dict_keys.
    + intros name. apply elem_of_dict_keys.
  - reflexivity.
  - intros HR. unfold description. run_method. now rewrite HR.
Qed.

Lemma description_of_first_row_witness :
  description Sample.cursor
  = (inr (Some [descriptor "id"; descriptor "name"]), Sample.cursor).
Proof.
  apply (proj1 (description_of_first_row Sample.cursor)
           [("id", VInt 1); ("name", VStr "a")]
           [Sample.row2; Sample.row3]).
  reflexivity.
Defined.

(** ** The connection: what [execute] makes of a 2xx response *)

Section Execute.

Variable str_other : value -> string.

Implicit Types (self : CloudflareD1Connection) (query : string)
  (parameters : option (list value)).

(** An open connection whose request is answered with a 2xx status and a
    body that decodes to [data]: the request is sent, and the result is
    what [unwrap] makes of [data]. *)
Lemma execute_2xx self query parameters response data :
  _closed self = false ->
  is_closed (client self) = false ->
  remote (client self) (sent (client self))
         (query_request self query parameters) = Responded response ->
  200 <= status_code response <= 299 ->
  json_body response = inr data ->
  execute str_other query parameters self
  = (unwrap str_other data,
     set_client self
       (has_sent (client self) (query_request self query parameters))).
Proof.
  intros Hopen Hclient Hremote Hstatus Hbody.
  unfold execute, post, Client_post. run_method.
  rewrite Hopen, Hclient. simpl.
  fold (query_request self query parameters). rewrite Hremote.
  unfold is_success.
  destruct (Z.leb_spec 200 (status_code response)); [| lia].
  destruct (Z.leb_spec (status_code response) 299); [| lia].
  simpl. rewrite Hbody. reflexivity.
Qed.

(** C1: a 2xx response whose envelope has [success] true.  With a
    non-empty [result], [execute] returns a cursor at position 0 whose
    [results], [meta] and [success] are the entries of those names of the
    first block, an absent [success] counting as true (and absent
    [results] and [meta] as empty); with an empty or absent [result] it
    returns the cursor with no rows, empty metadata and [success] true,
    whose [rowcount] is 0 and whose [lastrowid] is [None]. *)
Theorem execute_success_envelope self query parameters response envelope :
  _closed self = false ->
  is_closed (client self) = false ->
  remote (client self) (sent (client self))
         (query_request self query parameters) = Responded response ->
  200 <= status_code response <= 299 ->
  json_body response = inr (VDict envelope) ->
  dict_lookup envelope "success" = Some (VBool true) ->
  (forall block rest,
     dict_lookup envelope "result" = Some (VList (VDict block :: rest)) ->
     fst (execute str_other query parameters self)
     = inr {| results := default (VList []) (dict_lookup block "results");
              meta := default (VDict []) (dict_lookup block "meta");
              success := default (VBool true) (dict_lookup block "success");
              _index := 0 |})
  /\ (dict_lookup envelope "result" = Some (VList [])
      \/ dict_lookup envelope "result" = None ->
      let cursor :=
        {| results := VList []; meta := VDict []; success := VBool true;
           _index := 0 |} in
      fst (execute str_other query parameters self) = inr cursor
      /\ fst (rowcount cursor) = inr (VInt 0)
      /\ fst (lastrowid cursor) = inr VNone).
Proof.
  intros Hopen Hclient Hremote Hstatus Hbody Hok.
  rewrite (execute_2xx self query parameters response (VDict envelope))
    by assumption.
  simpl. unfold unwrap. simpl. rewrite Hok. simpl.
  split.
  - intros block rest Hresult. rewrite Hresult. simpl.
    unfold default. reflexivity.
  - intros [Hresult | Hresult]; rewrite Hresult; simpl; now repeat split.
Qed.

(** C2: a 2xx response whose envelope has [success] false.  [execute]
    raises; the error carries the [message] of the first entry of
    [errors] when there is one, and the text "D1 API request failed" when
    [errors] is empty or absent. *)
Theorem execute_failure_envelope self query parameters response envelope :
  _closed self = false ->
  is_closed (client self) = false ->
  remote (client self) (sent (client self))
         (query_request self query parameters) = Responded response ->
  200 <= status_code response <= 299 ->
  json_body response = inr (VDict envelope) ->
  dict_lookup envelope "success" = Some (VBool false) ->
  (forall entry rest message,
     dict_lookup envelope "errors" = Some (VList (VDict entry :: rest)) ->
     dict_lookup entry "message" = Some (VStr message) ->
     fst (execute str_other query parameters self)
     = inl (RuntimeError ("D1 API error: " +:+ message)))
  /\ (dict_lookup envelope "errors" = Some (VList [])
      \/ dict_lookup envelope "errors" = None ->
      fst (execute str_other query parameters self)
      = inl (RuntimeError "D1 API request failed")).
Proof.
  intros Hopen Hclient Hremote Hstatus Hbody Hok.
  rewrite (execute_2xx self query parameters response (VDict envelope))
    by assumption.
  simpl. unfold unwrap. simpl. rewrite Hok. simpl.
  split.
  - intros entry rest message Herrors Hmessage.
    rewrite Herrors. simpl. now rewrite Hmessage.
  - intros [Herrors | Herrors]; now rewrite Herrors.
Qed.

End Execute.

Lemma execute_success_envelope_witness :
  fst (execute Sample.str_other "SELECT * FROM t" None
         (Sample.connection (VDict SampleEnvelope.flagged)))
  = inr {| results := VList [Sample.row1; Sample.row2];
           meta := VDict [("changes", VInt 0); ("last_row_id", VInt 7)];
           success := VBool false;
           _index := 0 |}.
Proof.
  apply (proj1 (execute_success_envelope Sample.str_other
                  (Sample.connection (VDict SampleEnvelope.flagged))
                  "SELECT * FROM t" None
                  (SampleEnvelope.response SampleEnvelope.flagged)
                  SampleEnvelope.flagged
                  eq_refl eq_refl eq_refl
                  ltac:(simpl; lia)
                  eq_refl eq_refl)
           SampleEnvelope.flagged_block []).
  reflexivity.
Defined.

Lemma execute_failure_envelope_witness :
  fst (execute Sample.str_other "SELEC" (Some [VInt 1])
         (Sample.connection (VDict SampleEnvelope.failure)))
  = inl (RuntimeError "D1 API error: syntax error").
Proof.
  apply (proj1 (execute_failure_envelope Sample.str_other
                  (Sample.connection (VDict SampleEnvelope.failure))
                  "SELEC" (Some [VInt 1])
                  (SampleEnvelope.response SampleEnvelope.failure)
                  SampleEnvelope.failure
                  eq_refl eq_refl eq_refl
                  ltac:(simpl; lia)
                  eq_refl eq_refl)
           [("message", VStr "syntax error")] [] "syntax error").
  - reflexivity.
  - reflexivity.
Defined.

(** ** The connection after [close] *)

Section Closed.

Variable str_other : value -> string.

Implicit Types (self : CloudflareD1Connection) (query : string)
  (parameters : option (list value)).

Lemma close_sets_closed self : _closed (snd (close self)) = true.
Proof.
  unfold close. run_method. now destruct (_closed self) eqn:E.
Qed.

Lemma execute_closed self query parameters :
  _closed self = true ->
  execute str_other query parameters self
  = (inl (RuntimeError "Connection is closed"), self).
Proof. intros Hc. unfold execute. run_method. now rewrite Hc. Qed.

Lemma execute_many_closed self query parameters_list :
  _closed self = true ->
  execute_many str_other query parameters_list self
  = match parameters_list with
    | [] => (inr [], self)
    | _ :: _ => (inl (RuntimeError "Connection is closed"), self)
    end.
Proof.
  intros Hc. unfold execute_many.
  destruct parameters_list as [| ps rest]; simpl; [reflexivity |].
  run_method. now rewrite (execute_closed self query (Some ps) Hc).
Qed.

(** [_closed] never goes back to false. *)
Lemma closed_is_kept o self :
  _closed self = true -> _closed (channel_after str_other o self) = true.
Proof.
  intros Hc. destruct o; simpl; try assumption.
  - unfold close. run_method. now rewrite Hc.
  - now rewrite execute_closed.
  - rewrite execute_many_closed by assumption.
    now destruct parameters_list.
Qed.

Lemma closed_is_kept_all ops : forall self,
  _closed self = true -> _closed (channel_after_all str_other ops self) = true.
Proof.
  induction ops as [| o ops IH]; intros self Hc; simpl; [assumption |].
  apply IH. now apply closed_is_kept.
Qed.

(** C7: once [close()] has been called, and whatever is called between,
    [execute] raises "Connection is closed" and leaves the connection as
    it was; in particular the client has sent nothing more. *)
Theorem execute_after_close self ops query parameters :
  let self' := channel_after_all str_other ops (snd (close self)) in
  execute str_other query parameters self'
  = (inl (RuntimeError "Connection is closed"), self')
  /\ sent (client (snd (execute str_other query parameters self')))
     = sent (client self').
Proof.
  intros self'.
  assert (Hc : _closed self' = true)
    by apply closed_is_kept_all, close_sets_closed.
  now rewrite (execute_closed self' query parameters Hc).
Qed.


End Closed.


(** * Further properties of the cursor *)

Section CursorMore.

Implicit Types (self : CloudflareD1Result) (R : list value).

Ltac case_matches :=
  repeat match goal with
         | |- context [match ?x with _ => _ end] => destruct x; simpl
         end.

Lemma after_keeps_fields o self :
  results (after o self) = results self
  /\ meta (after o self) = meta self
  /\ success (after o self) = success self.
Proof.
  destruct o as [| size | | | i]; simpl.
  - unfold fetchone. run_method. case_matches; easy.
  - unfold fetchmany. run_method.
    destruct size; run_method; destruct (len (results self)); simpl;
      case_matches; easy.
  - unfold fetchall. run_method. case_matches; easy.
  - unfold __iter__. run_method. easy.
  - unfold __getitem__. run_method. easy.
Qed.

Lemma after_all_keeps_fields ops : forall self,
  results (after_all ops self) = results self
  /\ meta (after_all ops self) = meta self
  /\ success (after_all ops self) = success self.
Proof.
  induction ops as [| o ops IH]; intros self; simpl; [easy |].
  destruct (IH (after o self)) as (Hr & Hm & Hs).
  destruct (after_keeps_fields o self) as (Hr' & Hm' & Hs').
  unfold after_all in *. repeat split; congruence.
Qed.

(** No operation of the cursor, with whatever arguments, changes the rows,
    the metadata or the success flag: only the position moves. *)
Theorem cursor_fields_are_kept ops self :
  results (after_all ops self) = results self
  /\ meta (after_all ops self) = meta self
  /\ success (after_all ops self) = success self.
Proof. apply after_all_keeps_fields. Qed.

(** Iteration yields all the rows from the first one, wherever the
    fetches before it have left the position, and does not move it. *)
Theorem iteration_after_fetches self R ops :
  results self = VList R ->
  __iter__ (after_all ops self) = (inr R, after_all ops self).
Proof.
  intros HR. destruct (after_all_keeps_fields ops self) as (Hr & _).
  unfold __iter__. run_method. now rewrite Hr, HR.
Qed.

Lemma iteration_after_fetches_witness :
  __iter__ (after_all [Fetchone; Fetchmany (Some (-5)); Fetchall]
              Sample.cursor)
  = (inr Sample.rows,
     after_all [Fetchone; Fetchmany (Some (-5)); Fetchall] Sample.cursor).
Proof.
  apply (iteration_after_fetches Sample.cursor Sample.rows).
  reflexivity.
Defined.

Lemma fetchone_each_from n : forall self R,
  results self = VList R -> 0 <= _index self ->
  _index self + Z.of_nat n <= Z.of_nat (length R) ->
  exists self',
    fetchone_each n self
    = (inr (take n (drop (Z.to_nat (_index self)) R)), self')
    /\ results self' = VList R
    /\ _index self' = _index self + Z.of_nat n.
Proof.
  induction n as [| n IH]; intros self R HR Hi Hn; simpl.
  - exists self. repeat split; try easy. lia.
  - destruct (lookup_lt_is_Some_2 R (Z.to_nat (_index self)))
      as [row Hrow]; [lia |].
    run_method. rewrite (fetchone_row self R row HR Hi Hrow).
    set (self1 := set_index self (_index self + 1)).
    destruct (IH self1 R HR ltac:(simpl; lia) ltac:(simpl; lia))
      as (self' & Hrun & HR' & Hi').
    fold fetchone_each. rewrite Hrun.
    exists self'. repeat split; try easy.
    + do 2 f_equal. simpl.
      replace (Z.to_nat (_index self + 1))
        with (S (Z.to_nat (_index self))) by lia.
      now rewrite (drop_S _ _ _ Hrow).
    + rewrite Hi'. simpl. lia.
Qed.

(** [len(R)] calls of [fetchone] on a fresh cursor over [R] return the
    rows of [R] one by one in order; every [fetchone] after that returns
    [None] and leaves the position at [len(R)]. *)
Theorem fetchone_walks_the_rows R m s :
  exists self',
    fetchone_each (length R) (CloudflareD1Result_init (VList R) m s)
    = (inr R, self')
    /\ _index self' = Z.of_nat (length R)
    /\ fetchone self' = (inr VNone, self').
Proof.
  destruct (fetchone_each_from (length R)
              (CloudflareD1Result_init (VList R) m s) R)
    as (self' & Hrun & HR' & Hi'); simpl; try easy.
  exists self'. split; [| split].
  - rewrite Hrun. simpl. now rewrite take_ge.
  - rewrite Hi'. simpl. lia.
  - apply (fetchone_exhausted self' R HR'). rewrite Hi'. simpl. lia.
Qed.

(** With the position inside the rows, [fetchmany()] without a size and
    [fetchmany(k)] with [k] at least the number of rows left both do what
    [fetchall] does. *)
Theorem fetchmany_covers_the_rest self R k :
  results self = VList R ->
  0 <= _index self <= Z.of_nat (length R) ->
  Z.of_nat (length R) - _index self <= k ->
  fetchmany (Some k) self = fetchall self
  /\ fetchmany None self = fetchall self.
Proof.
  intros HR Hi Hk.
  rewrite (fetchmany_nonneg self R k HR Hi ltac:(lia)).
  rewrite (fetchmany_default self R HR Hi).
  rewrite (fetchall_list self R HR), list_slice_from by lia.
  rewrite Z.min_r by lia.
  split; [| reflexivity].
  do 3 f_equal. apply take_ge. rewrite length_drop. lia.
Qed.

Lemma fetchmany_covers_the_rest_witness :
  fetchmany (Some 10) (set_index Sample.cursor 1)
  = fetchall (set_index Sample.cursor 1)
  /\ fetchmany None (set_index Sample.cursor 1)
     = fetchall (set_index Sample.cursor 1).
Proof.
  apply (fetchmany_covers_the_rest (set_index Sample.cursor 1) Sample.rows).
  - reflexivity.
  - simpl. lia.
  - simpl. lia.
Defined.

(** Two [fetchmany] calls in a row, with sizes [a] and [b] that are not
    negative, return together what one call with size [a + b] returns,
    and leave the cursor where that call leaves it. *)
Theorem fetchmany_twice self R a b :
  results self = VList R ->
  0 <= _index self <= Z.of_nat (length R) ->
  0 <= a -> 0 <= b ->
  exists rows1 rows2 self1 self2,
    fetchmany (Some a) self = (inr (VList rows1), self1)
    /\ fetchmany (Some b) self1 = (inr (VList rows2), self2)
    /\ fetchmany (Some (a + b)) self = (inr (VList (rows1 ++ rows2)), self2).
Proof.
  intros HR Hi Ha Hb.
  set (n := Z.of_nat (length R)) in *.
  set (self1 := set_index self (Z.min (_index self + a) n)).
  assert (HR1 : results self1 = VList R) by exact HR.
  assert (Hi1 : 0 <= _index self1 <= n) by (simpl; lia).
  eexists _, _, self1, _. split; [| split].
  - apply (fetchmany_nonneg self R a HR Hi Ha).
  - apply (fetchmany_nonneg self1 R b HR1 Hi1 Hb).
  - rewrite (fetchmany_nonneg self R (a + b) HR Hi ltac:(lia)).
    fold n. simpl.
    replace (Z.min (Z.min (_index self + a) n + b) n)
      with (Z.min (_index self + (a + b)) n) by lia.
    unfold set_index at 2. simpl. f_equal. do 2 f_equal.
    destruct (Z.le_gt_cases (_index self + a) n) as [Hin | Hout].
    + rewrite Z.min_l by lia.
      replace (Z.to_nat (_index self + a))
        with (Z.to_nat (_index self) + Z.to_nat a)%nat by lia.
      rewrite <- drop_drop, take_take_drop. f_equal. lia.
    + rewrite Z.min_r by lia.
      rewrite (drop_ge R (Z.to_nat n)) by (subst n; lia).
      rewrite take_nil, app_nil_r.
      rewrite !take_ge; [reflexivity | rewrite length_drop; subst n; lia ..].
Qed.

Lemma fetchmany_twice_witness :
  exists rows1 rows2 self1 self2,
    fetchmany (Some 1) Sample.cursor = (inr (VList rows1), self1)
    /\ fetchmany (Some 1) self1 = (inr (VList rows2), self2)
    /\ fetchmany (Some (1 + 1)) Sample.cursor
       = (inr (VList (rows1 ++ rows2)), self2).
Proof.
  apply (fetchmany_twice Sample.cursor Sample.rows 1 1).
  - reflexivity.
  - simpl. lia.
  - lia.
  - lia.
Defined.

(** Once [fetchall] has run, nothing is left: [fetchone] returns [None],
    [fetchmany] (with no size or a size that is not negative) and
    [fetchall] return the empty list, and none of them moves the
    position. *)
Theorem nothing_left_after_fetchall self R k :
  results self = VList R -> 0 <= k ->
  let drained := snd (fetchall self) in
  fetchone drained = (inr VNone, drained)
  /\ fetchmany (Some k) drained = (inr (VList []), drained)
  /\ fetchmany None drained = (inr (VList []), drained)
  /\ fetchall drained = (inr (VList []), drained).
Proof.
  intros HR Hk. rewrite (fetchall_list self R HR). simpl.
  set (drained := set_index self (Z.of_nat (length R))).
  assert (HRd : results drained = VList R) by exact HR.
  assert (Hid : _index drained = Z.of_nat (length R)) by reflexivity.
  split; [| split; [| split]].
  - apply (fetchone_exhausted drained R HRd). lia.
  - rewrite (fetchmany_nonneg drained R k HRd ltac:(lia) Hk).
    rewrite Hid, Z.min_r, Nat2Z.id, drop_all, take_nil by lia.
    reflexivity.
  - rewrite (fetchmany_default drained R HRd ltac:(lia)).
    rewrite Hid, Nat2Z.id, drop_all. reflexivity.
  - rewrite (fetchall_list drained R HRd), list_slice_from by lia.
    rewrite Hid, Nat2Z.id, drop_all. reflexivity.
Qed.

Lemma nothing_left_after_fetchall_witness :
  let drained := snd (fetchall Sample.cursor) in
  fetchone drained = (inr VNone, drained)
  /\ fetchmany (Some 2) drained = (inr (VList []), drained)
  /\ fetchmany None drained = (inr (VList []), drained)
  /\ fetchall drained = (inr (VList []), drained).
Proof.
  apply (nothing_left_after_fetchall Sample.cursor Sample.rows 2).
  - reflexivity.
  - lia.
Defined.

(** Subscription with an index inside [0 .. len(R) - 1] returns that row;
    with an index at or past [len(R)], or below [-len(R)], it raises
    [IndexError].  Either way the cursor is left as it was. *)
Theorem getitem_bounds self R i :
  results self = VList R ->
  (0 <= i < Z.of_nat (length R) ->
   exists row, R !! Z.to_nat i = Some row
               /\ __getitem__ i self = (inr row, self))
  /\ (i < - Z.of_nat (length R) \/ Z.of_nat (length R) <= i ->
      __getitem__ i self = (inl IndexError, self)).
Proof.
  intros HR. split.
  - intros Hi.
    destruct (lookup_lt_is_Some_2 R (Z.to_nat i)) as [row Hrow]; [lia |].
    exists row. split; [exact Hrow |].
    unfold __getitem__. run_method. rewrite HR. simpl.
    now rewrite (list_getitem_nonneg R i row).
  - intros Hi. unfold __getitem__. run_method. rewrite HR. simpl.
    unfold list_getitem.
    destruct (Z.ltb_spec i 0);
      [ destruct (Z.ltb_spec (i + Z.of_nat (length R)) 0),
                 (Z.leb_spec (Z.of_nat (length R)) (i + Z.of_nat (length R)))
      | destruct (Z.ltb_spec i 0),
                 (Z.leb_spec (Z.of_nat (length R)) i) ];
      simpl; try reflexivity; lia.
Qed.

Lemma getitem_bounds_witness :
  __getitem__ 3 Sample.cursor = (inl IndexError, Sample.cursor).
Proof.
  apply (proj2 (getitem_bounds Sample.cursor Sample.rows 3 eq_refl)).
  right. simpl. lia.
Defined.

(** [rowcount] with dict metadata: over a list of rows it is the
    ["changes"] entry when there is one and the number of rows otherwise;
    but [len(self.results)] is evaluated in either case, so when
    [results] has no length (a [null] in the response, say) [rowcount]
    raises even though ["changes"] is there. *)
Theorem rowcount_cases self m :
  meta self = VDict m ->
  (forall R,
     results self = VList R ->
     rowcount self
     = (inr (default (VInt (Z.of_nat (length R))) (dict_lookup m "changes")),
        self))
  /\ (forall e, len (results self) = inl e -> rowcount self = (inl e, self)).
Proof.
  intros Hm. split.
  - intros R HR. unfold rowcount. run_method. now rewrite Hm, HR.
  - intros e He. unfold rowcount. run_method. now rewrite Hm, He.
Qed.

Lemma rowcount_cases_witness :
  rowcount (CloudflareD1Result_init VNone (VDict [("changes", VInt 2)])
              (VBool true))
  = (inl TypeError,
     CloudflareD1Result_init VNone (VDict [("changes", VInt 2)])
       (VBool true)).
Proof.
  apply (proj2 (rowcount_cases
                  (CloudflareD1Result_init VNone
                     (VDict [("changes", VInt 2)]) (VBool true))
                  [("changes", VInt 2)] eq_refl) TypeError).
  reflexivity.
Defined.

End CursorMore.

(** As long as no [fetchmany] is given a negative size, a cursor over a
    list of rows whose position is within [0 .. len(rows)] keeps it there
    through any sequence of fetches, iterations and subscriptions, failed
    ones included, and the position never moves back. *)
Theorem position_stays_in_bounds ops self R :
  results self = VList R ->
  0 <= _index self <= Z.of_nat (length R) ->
  Forall size_not_negative ops ->
  results (after_all ops self) = VList R
  /\ _index self <= _index (after_all ops self) <= Z.of_nat (length R).
Proof. apply after_all_position. Qed.

(** [fetchmany(0)] returns the empty list and leaves the cursor as it
    was, wherever the position is at or before the end of the rows. *)
Theorem fetchmany_size_zero self R :
  results self = VList R -> _index self <= Z.of_nat (length R) ->
  fetchmany (Some 0) self = (inr (VList []), self).
Proof. apply fetchmany_zero. Qed.

Lemma position_stays_in_bounds_witness :
  results (after_all [Fetchone; Fetchmany (Some 5); Subscript 7; Fetchall]
             Sample.cursor) = VList Sample.rows
  /\ _index Sample.cursor
     <= _index (after_all
                  [Fetchone; Fetchmany (Some 5); Subscript 7; Fetchall]
                  Sample.cursor)
     <= Z.of_nat (length Sample.rows).
Proof.
  apply (position_stays_in_bounds
           [Fetchone; Fetchmany (Some 5); Subscript 7; Fetchall]
           Sample.cursor Sample.rows).
  - reflexivity.
  - simpl. lia.
  - repeat constructor; simpl; lia.
Defined.

Lemma fetchmany_size_zero_witness :
  fetchmany (Some 0) (set_index Sample.cursor 2)
  = (inr (VList []), set_index Sample.cursor 2).
Proof.
  apply (fetchmany_size_zero (set_index Sample.cursor 2) Sample.rows).
  - reflexivity.
  - simpl. lia.
Defined.

(** * Further properties of the connection *)

Section ConnectionMore.

Variable str_other : value -> string.

Implicit Types (self : CloudflareD1Connection) (query : string)
  (parameters : option (list value)).

(** [execute] on an open connection with an open client, in full. *)
Lemma execute_open self query parameters :
  _closed self = false ->
  is_closed (client self) = false ->
  execute str_other query parameters self
  = match remote (client self) (sent (client self))
            (query_request self query parameters) with
    | NotSent e => (inl e, self)
    | RequestError e =>
        (inl (RuntimeError ("HTTP request failed: " +:+ e)),
         set_client self
           (has_sent (client self) (query_request self query parameters)))
    | Responded response =>
        (if is_success response then
           data ← json_body response; unwrap str_other data
         else
           inl (RuntimeError
                  ("HTTP error " +:+ pretty (status_code response) +:+ ": "
                   +:+ text response)),
         set_client self
           (has_sent (client self) (query_request self query parameters)))
    end.
Proof.
  intros Hopen Hclient.
  unfold execute, post, Client_post. run_method.
  rewrite Hopen, Hclient. simpl.
  fold (query_request self query parameters).
  destruct (remote (client self) (sent (client self))
              (query_request self query parameters)) as [e | e | response];
    simpl; [now destruct self | reflexivity |].
  destruct (is_success response); [| reflexivity].
  now destruct (json_body response).
Qed.

(** The connection after [execute]: untouched, or with one more request
    sent; and the latter if [execute] returned. *)
Lemma execute_state self query parameters :
  let self' := snd (execute str_other query parameters self) in
  (self' = self
   /\ exists e, fst (execute str_other query parameters self) = inl e)
  \/ (_closed self = false
      /\ self' = set_client self
                   (has_sent (client self)
                      (query_request self query parameters))).
Proof.
  destruct (_closed self) eqn:Hopen.
  - left. rewrite (execute_closed str_other self query parameters Hopen).
    simpl. eauto.
  - destruct (is_closed (client self)) eqn:Hclient.
    + left. unfold execute, post, Client_post. run_method.
      rewrite Hopen, Hclient. simpl.
      split; [now destruct self | eauto].
    + rewrite execute_open by assumption.
      destruct (remote (client self) (sent (client self))
                  (query_request self query parameters));
        simpl; eauto.
Qed.

(** On an open connection [execute] sends at most one request.  When
    [client.post] raises before sending (a body JSON cannot encode, a URL
    httpx rejects), nothing is sent, the connection is as before and the
    exception reaches the caller as it is, not as a [RuntimeError] of the
    connection's own.  In every other case exactly one request goes out,
    the one for the query and parameters, whether [execute] then returns
    or raises.  Either way the closed flag, the transaction flag and the
    configuration are as they were. *)
Theorem execute_sends_at_most_one_request self query parameters :
  _closed self = false ->
  is_closed (client self) = false ->
  let self' := snd (execute str_other query parameters self) in
  match remote (client self) (sent (client self))
          (query_request self query parameters) with
  | NotSent e => execute str_other query parameters self = (inl e, self)
  | _ =>
      sent (client self')
      = (sent (client self) ++ [query_request self query parameters])%list
  end
  /\ _closed self' = false
  /\ is_closed (client self') = false
  /\ _in_transaction self' = _in_transaction self
  /\ same_configuration self self'.
Proof.
  intros Hopen Hclient. rewrite execute_open by assumption.
  unfold same_configuration.
  destruct (remote (client self) (sent (client self))
              (query_request self query parameters));
    simpl; now repeat split.
Qed.

(** A transport failure ([httpx.RequestError]) becomes a [RuntimeError]
    whose text is "HTTP request failed: " followed by the cause. *)
Theorem execute_transport_failure self query parameters e :
  _closed self = false ->
  is_closed (client self) = false ->
  remote (client self) (sent (client self))
         (query_request self query parameters) = RequestError e ->
  fst (execute str_other query parameters self)
  = inl (RuntimeError ("HTTP request failed: " +:+ e)).
Proof.
  intros Hopen Hclient Hremote.
  rewrite execute_open by assumption. now rewrite Hremote.
Qed.

(** A response with a status outside 200..299 becomes a [RuntimeError]
    that carries the status code and the body text; the body is not
    decoded. *)
Theorem execute_http_error self query parameters response :
  _closed self = false ->
  is_closed (client self) = false ->
  remote (client self) (sent (client self))
         (query_request self query parameters) = Responded response ->
  status_code response < 200 \/ 299 < status_code response ->
  fst (execute str_other query parameters self)
  = inl (RuntimeError
           ("HTTP error " +:+ pretty (status_code response) +:+ ": "
            +:+ text response)).
Proof.
  intros Hopen Hclient Hremote Hstatus.
  rewrite execute_open by assumption. rewrite Hremote. simpl.
  unfold is_success.
  destruct (Z.leb_spec 200 (status_code response)),
           (Z.leb_spec (status_code response) 299);
    simpl; try reflexivity; lia.
Qed.

(** A 2xx response whose body does not decode raises what
    [response.json()] raised, not a [RuntimeError] of the connection's
    own; a body that decodes to something other than an object raises
    [AttributeError]. *)
Theorem execute_body_not_an_envelope self query parameters response :
  _closed self = false ->
  is_closed (client self) = false ->
  remote (client self) (sent (client self))
         (query_request self query parameters) = Responded response ->
  200 <= status_code response <= 299 ->
  (forall e, json_body response = inl e ->
             fst (execute str_other query parameters self) = inl e)
  /\ (forall data,
        json_body response = inr data ->
        (forall pairs, data <> VDict pairs) ->
        fst (execute str_other query parameters self) = inl AttributeError).
Proof.
  intros Hopen Hclient Hremote Hstatus.
  rewrite execute_open by assumption. rewrite Hremote. simpl.
  unfold is_success.
  destruct (Z.leb_spec 200 (status_code response)); [| lia].
  destruct (Z.leb_spec (status_code response) 299); [| lia].
  simpl. split.
  - intros e He. now rewrite He.
  - intros data Hdata Hnot. rewrite Hdata. simpl.
    destruct data; try reflexivity. now destruct (Hnot pairs).
Qed.

(** What the envelope leaves out: without a ["success"] entry the
    response counts as failed, whatever ["result"] holds; and a first
    error entry without a ["message"] is reported as "Unknown error". *)
Theorem execute_envelope_defaults self query parameters response envelope :
  _closed self = false ->
  is_closed (client self) = false ->
  remote (client self) (sent (client self))
         (query_request self query parameters) = Responded response ->
  200 <= status_code response <= 299 ->
  json_body response = inr (VDict envelope) ->
  (dict_lookup envelope "success" = None ->
   dict_lookup envelope "errors" = None ->
   fst (execute str_other query parameters self)
   = inl (RuntimeError "D1 API request failed"))
  /\ (forall entry rest,
        dict_lookup envelope "success" = None
        \/ dict_lookup envelope "success" = Some (VBool false) ->
        dict_lookup envelope "errors" = Some (VList (VDict entry :: rest)) ->
        dict_lookup entry "message" = None ->
        fst (execute str_other query parameters self)
        = inl (RuntimeError "D1 API error: Unknown error")).
Proof.
  intros Hopen Hclient Hremote Hstatus Hbody.
  rewrite (execute_2xx str_other self query parameters response
             (VDict envelope)) by assumption.
  simpl. unfold unwrap. simpl. split.
  - intros Hok Herrors. now rewrite Hok, Herrors.
  - intros entry rest [Hok | Hok] Herrors Hmessage;
      rewrite Hok; simpl; rewrite Herrors; simpl; now rewrite Hmessage.
Qed.

Lemma unwrap_position data cursor :
  unwrap str_other data = inr cursor -> _index cursor = 0.
Proof.
  unfold unwrap, get, get_method. intros H.
  destruct data; simpl in H; try discriminate.
  repeat (unfold mbind, result_bind, mret, result_ret in H; simpl in H;
          match type of H with
          | context [match ?x with _ => _ end] =>
              destruct x; simpl in H; try discriminate
          end);
    injection H as <-; reflexivity.
Qed.

Lemma execute_position self query parameters cursor :
  fst (execute str_other query parameters self) = inr cursor ->
  _index cursor = 0.
Proof.
  intros H.
  destruct (execute_state self query parameters)
    as [[_ [e He]] | [Hopen Hstate]]; [congruence |].
  destruct (is_closed (client self)) eqn:Hclient.
  - revert H. unfold execute, post, Client_post. run_method.
    rewrite Hopen, Hclient. simpl. discriminate.
  - rewrite execute_open in H by assumption. simpl in H.
    destruct (remote (client self) (sent (client self))
                (query_request self query parameters))
      as [e | e | response]; [discriminate | discriminate |].
    simpl in H.
    destruct (is_success response); [| discriminate].
    destruct (json_body response) as [e | data]; [discriminate |].
    now apply (unwrap_position data).
Qed.

(** Every cursor [execute] returns stands at position 0. *)
Theorem execute_returns_fresh_cursor self query parameters cursor :
  fst (execute str_other query parameters self) = inr cursor ->
  _index cursor = 0.
Proof. apply execute_position. Qed.

End ConnectionMore.

Lemma execute_sends_at_most_one_request_witness :
  let self := SampleNetwork.unsendable in
  let self' :=
    snd (execute Sample.str_other "SELECT ?" (Some [VFloat S754_nan]) self) in
  execute Sample.str_other "SELECT ?" (Some [VFloat S754_nan]) self
  = (inl ValueError, self)
  /\ _closed self' = false
  /\ is_closed (client self') = false
  /\ _in_transaction self' = _in_transaction self
  /\ same_configuration self self'.
Proof.
  apply (execute_sends_at_most_one_request Sample.str_other
           SampleNetwork.unsendable "SELECT ?" (Some [VFloat S754_nan])).
  - reflexivity.
  - reflexivity.
Defined.

Lemma execute_transport_failure_witness :
  fst (execute Sample.str_other "SELECT 1" None
         (CloudflareD1Connection_init "account" "database" "token"
            (fun _ _ => RequestError "timed out")))
  = inl (RuntimeError "HTTP request failed: timed out").
Proof.
  apply (execute_transport_failure Sample.str_other
           (CloudflareD1Connection_init "account" "database" "token"
              (fun _ _ => RequestError "timed out"))
           "SELECT 1" None "timed out").
  - reflexivity.
  - reflexivity.
  - reflexivity.
Defined.

Lemma execute_http_error_witness :
  fst (execute Sample.str_other "SELECT 1" None
         (CloudflareD1Connection_init "account" "database" "token"
            (fun _ _ =>
               Responded {| status_code := 404; text := "not found";
                            json_body := inl JSONDecodeError |})))
  = inl (RuntimeError "HTTP error 404: not found").
Proof.
  apply (execute_http_error Sample.str_other
           (CloudflareD1Connection_init "account" "database" "token"
              (fun _ _ =>
                 Responded {| status_code := 404; text := "not found";
                              json_body := inl JSONDecodeError |}))
           "SELECT 1" None
           {| status_code := 404; text := "not found";
              json_body := inl JSONDecodeError |}).
  - reflexivity.
  - reflexivity.
  - reflexivity.
  - right. simpl. lia.
Defined.

Lemma execute_body_not_an_envelope_witness :
  fst (execute Sample.str_other "SELECT 1" None
         (Sample.connection (VList [])))
  = inl AttributeError.
Proof.
  apply (proj2 (execute_body_not_an_envelope Sample.str_other
                  (Sample.connection (VList [])) "SELECT 1" None
                  {| status_code := 200; text := "";
                     json_body := inr (VList []) |}
                  eq_refl eq_refl eq_refl ltac:(simpl; lia))
           (VList [])).
  - reflexivity.
  - intros pairs. discriminate.
Defined.

Lemma execute_envelope_defaults_witness :
  fst (execute Sample.str_other "SELECT 1" None
         (Sample.connection
            (VDict [("result", VList [VDict SampleEnvelope.block])])))
  = inl (RuntimeError "D1 API request failed").
Proof.
  apply (proj1 (execute_envelope_defaults Sample.str_other
                  (Sample.connection
                     (VDict [("result", VList [VDict SampleEnvelope.block])]))
                  "SELECT 1" None
                  (SampleEnvelope.response
                     [("result", VList [VDict SampleEnvelope.block])])
                  [("result", VList [VDict SampleEnvelope.block])]
                  eq_refl eq_refl eq_refl ltac:(simpl; lia) eq_refl)).
  - reflexivity.
  - reflexivity.
Defined.

Lemma execute_returns_fresh_cursor_witness :
  _index (CloudflareD1Result_init
            (VList [Sample.row1]) (VDict [("changes", VInt 1)]) (VBool true))
  = 0.
Proof.
  apply (execute_returns_fresh_cursor Sample.str_other
           (Sample.connection (VDict SampleEnvelope.success))
           "SELECT 1" None).
  reflexivity.
Defined.

(** ** Sequences of operations on a connection *)

Section Related.

Variable str_other : value -> string.

(** A relation between the connection before and after that every
    elementary step keeps is kept by every sequence of operations. *)
Variable P : CloudflareD1Connection -> CloudflareD1Connection -> Prop.

Hypothesis P_refl : forall s, P s s.
Hypothesis P_trans : forall a b c, P a b -> P b c -> P a c.
Hypothesis P_execute :
  forall s query parameters,
    P s (snd (execute str_other query parameters s)).
Hypothesis P_close : forall s, P s (snd (close s)).
Hypothesis P_flag : forall s b, P s (set_in_transaction s b).

Lemma execute_many_loop_related parameters_list : forall acc s query,
  P s (snd (execute_many_loop str_other query parameters_list acc s)).
Proof.
  induction parameters_list as [| ps rest IH]; intros acc s query; simpl.
  - apply P_refl.
  - run_method.
    pose proof (P_execute s query (Some ps)) as Hstep.
    destruct (execute str_other query (Some ps) s) as [[e | r] s1];
      simpl in *; [assumption |].
    eapply P_trans; [exact Hstep | apply IH].
Qed.

Lemma channel_after_related o s : P s (channel_after str_other o s).
Proof.
  destruct o; simpl; try apply P_refl; try apply P_flag.
  - apply P_close.
  - apply P_execute.
  - apply execute_many_loop_related.
Qed.

Lemma channel_after_all_related ops : forall s,
  P s (channel_after_all str_other ops s).
Proof.
  induction ops as [| o ops IH]; intros s; simpl; [apply P_refl |].
  eapply P_trans; [apply channel_after_related | apply IH].
Qed.

End Related.

Section ConnectionInvariants.

Variable str_other : value -> string.

Implicit Types (self s : CloudflareD1Connection) (query : string)
  (parameters : option (list value)).

Lemma same_configuration_refl s : same_configuration s s.
Proof. unfold same_configuration. now repeat split. Qed.

Lemma same_configuration_trans a b c :
  same_configuration a b -> same_configuration b c -> same_configuration a c.
Proof.
  unfold same_configuration.
  intros (H1 & H2 & H3 & H4 & H5 & H6 & H7)
         (K1 & K2 & K3 & K4 & K5 & K6 & K7).
  repeat split; congruence.
Qed.

Lemma same_configuration_execute s query parameters :
  same_configuration s (snd (execute str_other query parameters s)).
Proof.
  destruct (execute_state str_other s query parameters)
    as [[-> _] | [_ ->]].
  - apply same_configuration_refl.
  - unfold same_configuration. simpl. now repeat split.
Qed.

Lemma same_configuration_close s : same_configuration s (snd (close s)).
Proof.
  unfold close. run_method.
  destruct (_closed s); simpl; unfold same_configuration; simpl;
    now repeat split.
Qed.

Lemma query_request_configuration s s' query parameters :
  same_configuration s s' ->
  query_request s' query parameters = query_request s query parameters.
Proof.
  intros (_ & _ & _ & Hurl & Hheaders & _).
  unfold query_request. now rewrite Hurl, Hheaders.
Qed.

(** No operation changes what [__init__] set up: the account and
    database identifiers, the token, the base URL, and the headers,
    timeout and remote end of the client. *)
Theorem configuration_is_kept ops self :
  same_configuration self (channel_after_all str_other ops self).
Proof.
  apply (channel_after_all_related str_other same_configuration).
  - apply same_configuration_refl.
  - apply same_configuration_trans.
  - apply same_configuration_execute.
  - apply same_configuration_close.
  - intros s b. unfold same_configuration. simpl. now repeat split.
Qed.

Lemma sent_more_refl s : sent_more s s.
Proof.
  split; [apply same_configuration_refl |].
  exists []. split; [now rewrite app_nil_r | constructor].
Qed.

Lemma sent_more_trans a b c : sent_more a b -> sent_more b c -> sent_more a c.
Proof.
  intros [Hab (r1 & Hs1 & Hf1)] [Hbc (r2 & Hs2 & Hf2)].
  split; [now apply (same_configuration_trans a b c) |].
  exists (r1 ++ r2)%list. split.
  - now rewrite Hs2, Hs1, app_assoc.
  - apply Forall_app. split; [exact Hf1 |].
    eapply Forall_impl; [exact Hf2 |].
    intros rq (query & parameters & ->).
    exists query, parameters. now apply query_request_configuration.
Qed.

Lemma sent_more_execute s query parameters :
  sent_more s (snd (execute str_other query parameters s)).
Proof.
  destruct (execute_state str_other s query parameters)
    as [[Heq _] | [_ Heq]]; rewrite Heq.
  - apply sent_more_refl.
  - split.
    + unfold same_configuration. simpl. now repeat split.
    + exists [query_request s query parameters]. split; [reflexivity |].
      constructor; [eauto | constructor].
Qed.

Lemma sent_more_close s : sent_more s (snd (close s)).
Proof.
  split; [apply same_configuration_close |].
  exists []. split; [| constructor].
  unfold close. run_method. destruct (_closed s); simpl;
    now rewrite app_nil_r.
Qed.

Lemma sent_more_all ops self :
  sent_more self (channel_after_all str_other ops self).
Proof.
  apply (channel_after_all_related str_other sent_more).
  - apply sent_more_refl.
  - apply sent_more_trans.
  - apply sent_more_execute.
  - apply sent_more_close.
  - intros s b. split.
    + unfold same_configuration. simpl. now repeat split.
    + exists []. simpl. split; [now rewrite app_nil_r | constructor].
Qed.

(** The list of requests a connection has sent is only ever extended:
    after any operations it is the list from before followed by requests
    built by [execute]. *)
Theorem sent_requests_are_kept ops self :
  exists requests,
    sent (client (channel_after_all str_other ops self))
    = (sent (client self) ++ requests)%list
    /\ Forall (fun rq => exists query parameters,
                           rq = query_request self query parameters)
              requests.
Proof. destruct (sent_more_all ops self) as [_ H]. exact H. Qed.


Lemma closed_together_all ops self :
  closed_together self ->
  closed_together (channel_after_all str_other ops self).
Proof.
  apply (channel_after_all_related str_other
           (fun s s' => closed_together s -> closed_together s')).
  - auto.
  - auto.
  - intros s query parameters.
    destruct (execute_state str_other s query parameters)
      as [[-> _] | [_ ->]]; auto.
  - intros s. unfold close, closed_together. run_method.
    destruct (_closed s) eqn:E; simpl; rewrite ?E; auto.
  - intros s b. auto.
Qed.

(** On a connection made by [__init__], after any operations, the client
    is closed exactly when the connection is.  So [execute] either finds
    the connection closed, raises "Connection is closed" and sends
    nothing; or finds it open and hands its request to an open client,
    which sends it unless [post] raises before sending, in which case
    that exception reaches the caller and the connection is as before. *)
Theorem execute_on_a_connection account database token net ops
    query parameters :
  let self :=
    channel_after_all str_other ops
      (CloudflareD1Connection_init account database token net) in
  let self' := snd (execute str_other query parameters self) in
  is_closed (client self) = _closed self
  /\ if _closed self then
       execute str_other query parameters self
       = (inl (RuntimeError "Connection is closed"), self)
     else
       match remote (client self) (sent (client self))
               (query_request self query parameters) with
       | NotSent e =>
           execute str_other query parameters self = (inl e, self)
       | _ =>
           sent (client self')
           = (sent (client self)
              ++ [query_request self query parameters])%list
       end.
Proof.
  intros self self'.
  assert (Hc : closed_together self)
    by (apply closed_together_all; reflexivity).
  split; [now rewrite <- Hc |].
  destruct (_closed self) eqn:Hopen.
  - now apply execute_closed.
  - subst self'. rewrite execute_open; [| exact Hopen | now rewrite <- Hc].
    now destruct (remote (client self) (sent (client self))
                    (query_request self query parameters)).
Qed.

(** The operations other than [execute] and [execute_many] send
    nothing. *)
Theorem local_operations_send_nothing ops self :
  Forall is_local ops ->
  sent (client (channel_after_all str_other ops self)) = sent (client self).
Proof.
  revert self. induction ops as [| o ops IH]; intros self Hops;
    [reflexivity |].
  apply Forall_cons in Hops as [Ho Hops].
  change (channel_after_all str_other (o :: ops) self)
    with (channel_after_all str_other ops (channel_after str_other o self)).
  rewrite (IH _ Hops).
  destruct o; simpl in *; try easy.
  unfold close. run_method. now destruct (_closed self).
Qed.

(** [close] can be called again: the second call returns and changes
    nothing.  After [close] the [closed] property reads true, the client
    has been closed, and the requests sent are as before. *)
Theorem close_twice self :
  let self' := snd (close self) in
  fst (close self) = inr tt
  /\ close self' = (inr tt, self')
  /\ closed self' = (inr true, self')
  /\ sent (client self') = sent (client self)
  /\ (closed_together self -> is_closed (client self') = true).
Proof.
  unfold close, closed, closed_together. run_method.
  destruct (_closed self) eqn:Hc; simpl; rewrite ?Hc; simpl;
    repeat split; congruence.
Qed.

End ConnectionInvariants.

Lemma local_operations_send_nothing_witness :
  sent (client (channel_after_all Sample.str_other
                  [BeginTransaction; GetServerVersion; RollbackTransaction;
                   Close; CommitTransaction; Closed]
                  (Sample.connection VNone)))
  = sent (client (Sample.connection VNone)).
Proof.
  apply (local_operations_send_nothing Sample.str_other).
  repeat constructor.
Defined.

Lemma close_twice_witness :
  is_closed (client (snd (close (Sample.connection VNone)))) = true.
Proof.
  apply (close_twice (Sample.connection VNone)).
  reflexivity.
Defined.

(** ** execute_many *)

Section ExecuteMany.

Variable str_other : value -> string.

Implicit Types (self s : CloudflareD1Connection) (query : string)
  (parameters_list : list (list value)).

(** The list built so far only ever gets results appended. *)
Lemma execute_many_loop_acc parameters_list : forall acc s query,
  execute_many_loop str_other query parameters_list acc s
  = match execute_many_loop str_other query parameters_list [] s with
    | (inl e, s') => (inl e, s')
    | (inr rs, s') => (inr (acc ++ rs)%list, s')
    end.
Proof.
  induction parameters_list as [| ps rest IH]; intros acc s query; simpl.
  - run_method. now rewrite app_nil_r.
  - run_method.
    destruct (execute str_other query (Some ps) s) as [[e | r] s1];
      [reflexivity |].
    rewrite (IH (acc ++ [r])%list), (IH ([] ++ [r])%list).
    destruct (execute_many_loop str_other query rest [] s1)
      as [[e | rs] s2]; [reflexivity |].
    simpl. now rewrite <- app_assoc.
Qed.

(** [execute_many] on a non-empty list: [execute] on the first parameter
    sequence, then [execute_many] on the others. *)
Lemma execute_many_step query ps rest s :
  execute_many str_other query (ps :: rest) s
  = match execute str_other query (Some ps) s with
    | (inl e, s1) => (inl e, s1)
    | (inr r, s1) =>
        match execute_many str_other query rest s1 with
        | (inl e, s2) => (inl e, s2)
        | (inr rs, s2) => (inr (r :: rs), s2)
        end
    end.
Proof.
  unfold execute_many. simpl. run_method.
  destruct (execute str_other query (Some ps) s) as [[e | r] s1];
    [reflexivity |].
  now rewrite (execute_many_loop_acc rest ([] ++ [r])%list).
Qed.

(** [execute_many] stops at the first call that fails: if the calls for
    [before] succeed and the call for [ps] then raises, [execute_many]
    raises the same exception and leaves the connection as that call left
    it, so nothing is sent for the sequences after [ps]; the results of
    the calls that succeeded are not returned. *)
Theorem execute_many_stops_at_failure query before ps others :
  forall s rs s1 e s2,
    execute_many str_other query before s = (inr rs, s1) ->
    execute str_other query (Some ps) s1 = (inl e, s2) ->
    execute_many str_other query (before ++ ps :: others)%list s
    = (inl e, s2).
Proof.
  induction before as [| ps0 before IH]; intros s rs s1 e s2 Hbefore Hfail.
  - injection Hbefore as <- <-. simpl.
    rewrite execute_many_step. now rewrite Hfail.
  - rewrite execute_many_step in Hbefore. simpl.
    rewrite execute_many_step.
    destruct (execute str_other query (Some ps0) s) as [[e0 | r] s0];
      [discriminate |].
    destruct (execute_many str_other query before s0) as [[e0 | rs0] s0']
      eqn:Hrest; [discriminate |].
    injection Hbefore as <- <-.
    now rewrite (IH s0 rs0 s0' e s2 Hrest Hfail).
Qed.

(** When [execute_many] returns, it returns one cursor per parameter
    sequence, each at position 0, and has sent one request per parameter
    sequence, in the order of the list. *)
Theorem execute_many_one_request_each query parameters_list :
  forall s rs,
    fst (execute_many str_other query parameters_list s) = inr rs ->
    length rs = length parameters_list
    /\ Forall (fun cursor => _index cursor = 0) rs
    /\ sent (client (snd (execute_many str_other query parameters_list s)))
       = (sent (client s)
          ++ ((fun ps => query_request s query (Some ps))
                <$> parameters_list))%list.
Proof.
  induction parameters_list as [| ps rest IH]; intros s rs Hrun.
  - injection Hrun as <-. simpl. repeat split; [constructor |].
    now rewrite app_nil_r.
  - rewrite execute_many_step in Hrun |- *.
    pose proof (execute_state str_other s query (Some ps)) as Hstate.
    pose proof (execute_position str_other s query (Some ps)) as Hfresh.
    destruct (execute str_other query (Some ps) s) as [[e | r] s1];
      [discriminate |].
    simpl in Hstate, Hfresh.
    destruct Hstate as [[_ [e He]] | [_ ->]]; [discriminate |].
    specialize (IH (set_client s
                      (has_sent (client s) (query_request s query (Some ps))))).
    destruct (execute_many str_other query rest
                (set_client s
                   (has_sent (client s) (query_request s query (Some ps)))))
      as [[e | rs'] s2]; [discriminate |].
    injection Hrun as <-.
    destruct (IH rs' eq_refl) as (Hlen & Hpos & Hsent).
    simpl in *. repeat split.
    + now rewrite Hlen.
    + constructor; [now apply Hfresh | exact Hpos].
    + rewrite Hsent. now rewrite <- app_assoc.
Qed.

End ExecuteMany.

Lemma execute_many_stops_at_failure_witness :
  execute_many Sample.str_other "INSERT INTO t VALUES (?)"
    ([[VInt 1]] ++ [VInt 2] :: [[VInt 3]])%list SampleNetwork.connection
  = (inl (RuntimeError "HTTP request failed: connection refused"),
     snd (execute Sample.str_other "INSERT INTO t VALUES (?)"
            (Some [VInt 2])
            (snd (execute_many Sample.str_other "INSERT INTO t VALUES (?)"
                    [[VInt 1]] SampleNetwork.connection)))).
Proof.
  apply (execute_many_stops_at_failure Sample.str_other
           "INSERT INTO t VALUES (?)" [[VInt 1]] [VInt 2] [[VInt 3]]
           SampleNetwork.connection
           [CloudflareD1Result_init (VList []) (VDict []) (VBool true)]
           (snd (execute_many Sample.str_other "INSERT INTO t VALUES (?)"
                   [[VInt 1]] SampleNetwork.connection))).
  - reflexivity.
  - reflexivity.
Defined.

Lemma execute_many_one_request_each_witness :
  let self := Sample.connection (VDict SampleEnvelope.success) in
  let cursor :=
    CloudflareD1Result_init
      (VList [Sample.row1]) (VDict [("changes", VInt 1)]) (VBool true) in
  length [cursor; cursor] = length [[VInt 1]; [VInt 2]]
  /\ Forall (fun cursor => _index cursor = 0) [cursor; cursor]
  /\ sent (client (snd (execute_many Sample.str_other "SELECT ?"
                          [[VInt 1]; [VInt 2]] self)))
     = (sent (client self)
        ++ ((fun ps => query_request self "SELECT ?" (Some ps))
              <$> [[VInt 1]; [VInt 2]]))%list.
Proof.
  apply (execute_many_one_request_each Sample.str_other "SELECT ?"
           [[VInt 1]; [VInt 2]]
           (Sample.connection (VDict SampleEnvelope.success))).
  reflexivity.
Defined.

(** ** The transaction flag *)

Section TransactionFlag.

Variable str_other : value -> string.

Lemma flag_kept_by_execute s query parameters :
  _in_transaction (snd (execute str_other query parameters s))
  = _in_transaction s.
Proof.
  destruct (execute_state str_other s query parameters)
    as [[-> _] | [_ ->]]; reflexivity.
Qed.

Lemma flag_kept o s :
  ~ is_transaction_op o ->
  _in_transaction (channel_after str_other o s) = _in_transaction s.
Proof.
  intros Ho. destruct o; simpl in *; try easy.
  - unfold close. run_method. now destruct (_closed s).
  - apply flag_kept_by_execute.
  - apply (execute_many_loop_related str_other
             (fun a b => _in_transaction b = _in_transaction a)).
    + reflexivity.
    + intros a b c Hab Hbc. congruence.
    + intros a q p. apply flag_kept_by_execute.
Qed.

(** The transaction flag is bookkeeping only: [begin_transaction] sets
    it, [commit_transaction] and [rollback_transaction] clear it, on an
    open or a closed connection alike and without sending anything; and
    no other operation, [execute] and [close] included, changes it. *)
Theorem transaction_flag ops self :
  Forall (fun o => ~ is_transaction_op o) ops ->
  _in_transaction
    (channel_after_all str_other ops (snd (begin_transaction self))) = true
  /\ _in_transaction
       (channel_after_all str_other ops (snd (commit_transaction self)))
     = false
  /\ _in_transaction
       (channel_after_all str_other ops (snd (rollback_transaction self)))
     = false
  /\ _in_transaction (channel_after_all str_other ops self)
     = _in_transaction self.
Proof.
  intros Hops.
  assert (Hkept : forall s,
            _in_transaction (channel_after_all str_other ops s)
            = _in_transaction s).
  { induction Hops as [| o ops Ho Hops IH]; intros s; [reflexivity |].
    change (channel_after_all str_other (o :: ops) s)
      with (channel_after_all str_other ops (channel_after str_other o s)).
    rewrite IH. now apply flag_kept. }
  rewrite !Hkept. now repeat split.
Qed.

End TransactionFlag.

Lemma transaction_flag_witness :
  let ops := [Execute "INSERT INTO t VALUES (1)" None; Close; Closed] in
  let self := Sample.connection (VDict SampleEnvelope.success) in
  _in_transaction
    (channel_after_all Sample.str_other ops (snd (begin_transaction self)))
  = true
  /\ _in_transaction
       (channel_after_all Sample.str_other ops
          (snd (commit_transaction self)))
     = false
  /\ _in_transaction
       (channel_after_all Sample.str_other ops
          (snd (rollback_transaction self)))
     = false
  /\ _in_transaction (channel_after_all Sample.str_other ops self)
     = _in_transaction self.
Proof.
  apply (transaction_flag Sample.str_other
           [Execute "INSERT INTO t VALUES (1)" None; Close; Closed]
           (Sample.connection (VDict SampleEnvelope.success))).
  repeat constructor; simpl; tauto.
Defined.
